(** * Classification lists and the confusion matrix of the patch extractor

    A shallow embedding of [ClassificationList.cpp] / [ClassificationList.h]
    (the acl/pcl parser) and of [PatchExtractor::WriteSort] in
    [CompareList.cpp] (the confusion matrix accumulator and its writer),
    followed by the properties of the specification, each settled against
    the embedding. *)

From Stdlib Require Import List String Ascii ZArith Lia Bool Arith.
From Stdlib Require Import Numbers.DecimalString Numbers.DecimalZ Numbers.DecimalPos.
Import ListNotations.

Local Open Scope string_scope.
Local Open Scope Z_scope.

(* ================================================================== *)
(** ** Machine integers *)

(** [uint32_t]: the value after an operation is taken modulo 2^32. *)
Definition uint32_modulus : Z := 2 ^ 32.

Definition uint32_wrap (z : Z) : Z := z mod uint32_modulus.

(** [int32_t] (the cells of the confusion matrix): two's complement. *)
Definition int32_wrap (z : Z) : Z := (z + 2 ^ 31) mod 2 ^ 32 - 2 ^ 31.

(* ================================================================== *)
(** ** Input streams

    A [std::istream] is the characters not yet extracted together with the
    two state bits the parser can observe.  ([badbit] is never raised by
    an in-memory sequence of characters.) *)

Record istream : Type := mk_istream
  { buf : list ascii;
    eofbit : bool;
    failbit : bool }.

(** [stream.good()] *)
Definition good (s : istream) : bool := negb (eofbit s) && negb (failbit s).

(** A freshly opened stream over the given characters. *)
Definition opened (contents : list ascii) : istream :=
  mk_istream contents false false.

Definition istream_of (contents : string) : istream :=
  opened (list_ascii_of_string contents).

(** [std::isspace] in the classic locale: space, [\t], [\n], [\v], [\f],
    [\r]. Used by the formatted [operator>>] (skipws) and by
    [boost::trim_left]. *)
Definition isspace (c : ascii) : bool :=
  let n := N_of_ascii c in
  (N.eqb n 32 || (N.leb 9 n && N.leb n 13))%bool.

(** Splits at the first occurrence of [delim]: the characters before it
    and the characters after it; [None] when [delim] does not occur. *)
Fixpoint split_at (delim : ascii) (l : list ascii)
  : option (list ascii * list ascii) :=
  match l with
  | [] => None
  | c :: l' =>
      if Ascii.eqb c delim then Some ([], l')
      else match split_at delim l' with
           | Some (pre, post) => Some (c :: pre, post)
           | None => None
           end
  end.

(** [std::getline(stream, input, delim)]: the new stream, the new value of
    [input], and the truth value of the returned stream ([!fail()]).
    A stream that is not good fails at once and leaves [input] alone.
    Otherwise characters are extracted up to the delimiter, which is
    extracted and dropped, or up to the end of the stream, which raises
    [eofbit]; extracting nothing raises [failbit]. *)
Definition getline (s : istream) (input : string) (delim : ascii)
  : istream * string * bool :=
  if negb (good s) then
    (mk_istream (buf s) (eofbit s) true, input, false)
  else
    match split_at delim (buf s) with
    | Some (pre, post) =>
        (mk_istream post false false, string_of_list_ascii pre, true)
    | None =>
        match buf s with
        | [] => (mk_istream [] true true, EmptyString, false)
        | _ :: _ => (mk_istream [] true false, string_of_list_ascii (buf s), true)
        end
    end.

(** Drops the leading white space of a character sequence. *)
Fixpoint skipws (l : list ascii) : list ascii :=
  match l with
  | [] => []
  | c :: l' => if isspace c then skipws l' else l
  end.

(** [stream >> value] for a [char]: a formatted extraction, so leading
    white space is skipped first.  Returns the new stream and the
    character read, [None] when the extraction failed. *)
Definition read_char (s : istream) : istream * option ascii :=
  if negb (good s) then
    (mk_istream (buf s) (eofbit s) true, None)
  else
    match skipws (buf s) with
    | [] => (mk_istream [] true true, None)
    | c :: rest => (mk_istream rest false false, Some c)
    end.

(** [boost::trim_left] *)
Fixpoint trim_left (s : string) : string :=
  match s with
  | EmptyString => EmptyString
  | String c s' => if isspace c then trim_left s' else s
  end.

(* ================================================================== *)
(** ** ClassificationList.h *)

Record PatchClassification : Type := mk_PatchClassification
  { subsampleNumber : Z;      (* uint32_t, one-based subsample number *)
    patchIndex : Z;           (* uint32_t, zero-based for each subsample *)
    classification : string   (* the apr- or user-assigned class *) }.

(** The member [classifications] of a [ClassificationList]. *)
Definition ClassificationList : Type := list (list PatchClassification).

(* ================================================================== *)
(** ** ClassificationList.cpp *)

Definition comma : ascii := ","%char.
Definition langle : ascii := "<"%char.
Definition rangle : ascii := ">"%char.
Definition newline : ascii := "010"%char.

(** [nextChar == ',' || nextChar == '<'] *)
Definition is_delimiter (c : ascii) : bool :=
  Ascii.eqb c comma || Ascii.eqb c langle.

(** [className.push_back(nextChar)] *)
Definition push_back (className : string) (c : ascii) : string :=
  className ++ String c EmptyString.

(** The record pushed when a delimiter is met. *)
Definition emitted (ssn index : Z) (className : string) : PatchClassification :=
  match className with
  | EmptyString => mk_PatchClassification ssn index "NONE"
  | String _ _ => mk_PatchClassification ssn index className
  end.

(** The [while (iter != end)] loop of [SubsampleClassifications].
    [iter] is the stream iterator: [Some c] when it holds the character
    [c] it has already extracted, [None] when it is the end-of-stream
    iterator.  [*iter++] yields the held character and extracts the next
    one at once.  The result is the records pushed from here on, and the
    stream as the loop leaves it; [None] only when [fuel] runs out. *)
Fixpoint scan_body (fuel : nat) (ssn : Z) (stream : istream)
  (iter : option ascii) (className : string) (index : Z)
  : option (list PatchClassification * istream) :=
  match fuel with
  | O => None
  | S fuel' =>
      match iter with
      | None => Some ([], stream)
      | Some nextChar =>
          let '(stream', iter') := read_char stream in
          if is_delimiter nextChar then
            let pushed := emitted ssn index className in
            let index' := uint32_wrap (index + 1) in
            if Ascii.eqb nextChar langle then Some ([pushed], stream')
            else
              match scan_body fuel' ssn stream' iter' EmptyString index' with
              | Some (result, final) => Some (pushed :: result, final)
              | None => None
              end
          else
            scan_body fuel' ssn stream' iter' (push_back className nextChar) index
      end
  end.

(** [ClassificationList::SubsampleClassifications(stream, ssn)].
    Constructing the iterator extracts the first character.  Every turn of
    the loop but the last extracts one character more, so the length of
    the stream plus two bounds the number of turns. *)
Definition SubsampleClassifications (stream : istream) (ssn : Z)
  : option (list PatchClassification * istream) :=
  let '(stream0, iter) := read_char stream in
  scan_body (2 + List.length (buf stream0)) ssn stream0 iter EmptyString 0.

(** The [while (std::getline(stream,input,'>'))] loop of the constructor:
    the subsamples pushed from here on. *)
Fixpoint parse_classes (fuel : nat) (stream : istream) (input : string) (ssn : Z)
  : option ClassificationList :=
  match fuel with
  | O => None
  | S fuel' =>
      let '(stream1, input1, ok) := getline stream input rangle in
      if ok then
        if String.eqb (trim_left input1) "<CLASS" then
          let ssn' := uint32_wrap (ssn + 1) in
          match SubsampleClassifications stream1 ssn' with
          | Some (subsample, stream2) =>
              match parse_classes fuel' stream2 (trim_left input1) ssn' with
              | Some rest => Some (subsample :: rest)
              | None => None
              end
          | None => None
          end
        else
          let '(stream2, input2, _) := getline stream1 (trim_left input1) newline in
          parse_classes fuel' stream2 input2 ssn
      else Some []
  end.

(** [ClassificationList::ClassificationList(std::istream& stream)].
    Every turn of the loop that does not leave it extracts at least one
    character. *)
Definition ClassificationList_of (stream : istream) : option ClassificationList :=
  parse_classes (1 + List.length (buf stream)) stream EmptyString 0.


(* ================================================================== *)
(** ** CompareList.cpp: [PatchExtractor::WriteSort] *)

(** How the evaluation of a piece of the program can end. *)
Inductive outcome (A : Type) : Type :=
| Returned (a : A)        (* ran to its end *)
| Thrown (what : string)  (* an exception left it ([main] catches them) *)
| Undefined               (* it read outside a vector: no defined behaviour *)
| Unfinished.             (* the fuel of the model ran out *)

Arguments Returned {A} a.
Arguments Thrown {A} what.
Arguments Undefined {A}.
Arguments Unfinished {A}.

(** [v[i]] on a [std::vector]: unchecked, so anything outside the vector
    is [None].  (A negative [i] stands for the huge [size_t] it converts
    to, which is outside every vector.) *)
Definition subscript {A : Type} (v : list A) (i : Z) : option A :=
  if i <? 0 then None else nth_error v (Z.to_nat i).

(** Modelled from the spec: [ISL::Math::Matrix<int32_t,2>], whose header
    is not among the sources.  A matrix of the two given dimensions that
    starts all-zero; [m(i,j)] is a cell, here [cell m i j]. *)
Record Matrix : Type := mk_Matrix
  { Dim1 : Z;
    Dim2 : Z;
    cell : Z -> Z -> Z }.

(** [ISL::Math::Matrix<int32_t,2> conmatrix(d1,d2)] *)
Definition Matrix_new (d1 d2 : Z) : Matrix := mk_Matrix d1 d2 (fun _ _ => 0).

(** [++conmatrix(i,j)] on an [int32_t] cell *)
Definition Matrix_incr (m : Matrix) (i j : Z) : Matrix :=
  mk_Matrix (Dim1 m) (Dim2 m)
    (fun i' j' =>
       if (i' =? i) && (j' =? j) then int32_wrap (cell m i j + 1)
       else cell m i' j').

(** The first [if]/[else if] chain of the loop body: [pclindex]. *)
Definition pclindex_of (pclclassification : string) : Z :=
  if String.eqb pclclassification "RBC" then 0
  else if String.eqb pclclassification "DRBC" then 1
  else if String.eqb pclclassification "RBCC" then 2
  else if String.eqb pclclassification "WBC" then 3
  else if String.eqb pclclassification "WBCC" then 4
  else if String.eqb pclclassification "BACT" then 5
  else if String.eqb pclclassification "SQEP" then 6
  else if String.eqb pclclassification "NSE" then 7
  else if String.eqb pclclassification "TREP" then 8
  else if String.eqb pclclassification "REEP" then 9
  else if String.eqb pclclassification "CAOX" then 10
  else if String.eqb pclclassification "URIC" then 11
  else if String.eqb pclclassification "TPO4" then 12
  else if String.eqb pclclassification "CAPH" then 13
  else if String.eqb pclclassification "CYST" then 14
  else if String.eqb pclclassification "LEUC" then 15
  else if String.eqb pclclassification "AMOR" then 16
  else if String.eqb pclclassification "CELL" then 17
  else if String.eqb pclclassification "GRAN" then 18
  else if String.eqb pclclassification "MUCS" then 19
  else if String.eqb pclclassification "SPRM" then 20
  else if String.eqb pclclassification "BYST" then 21
  else if String.eqb pclclassification "HYST" then 22
  else if String.eqb pclclassification "TRCH" then 23
  else if String.eqb pclclassification "BUBB" then 24
  else if String.eqb pclclassification "NONE" then 25
  else 25.

(** The second chain: [aclindex]. *)
Definition aclindex_of (aclclassification : string) : Z :=
  if String.eqb aclclassification "RBC" then 0
  else if String.eqb aclclassification "DRBC" then 1
  else if String.eqb aclclassification "RBCC" then 2
  else if String.eqb aclclassification "WBC" then 3
  else if String.eqb aclclassification "WBCC" then 4
  else if String.eqb aclclassification "BACT" then 5
  else if String.eqb aclclassification "SQEP" then 6
  else if String.eqb aclclassification "NSE" then 7
  else if String.eqb aclclassification "TREP" then 8
  else if String.eqb aclclassification "REEP" then 9
  else if String.eqb aclclassification "CAOX" then 10
  else if String.eqb aclclassification "URIC" then 11
  else if String.eqb aclclassification "TPO4" then 12
  else if String.eqb aclclassification "CAPH" then 13
  else if String.eqb aclclassification "CYST" then 14
  else if String.eqb aclclassification "LEUC" then 15
  else if String.eqb aclclassification "AMOR" then 16
  else if String.eqb aclclassification "CELL" then 17
  else if String.eqb aclclassification "GRAN" then 18
  else if String.eqb aclclassification "MUCS" then 19
  else if String.eqb aclclassification "SPRM" then 20
  else if String.eqb aclclassification "BYST" then 21
  else if String.eqb aclclassification "HYST" then 22
  else if String.eqb aclclassification "TRCH" then 23
  else if String.eqb aclclassification "BUBB" then 24
  else if String.eqb aclclassification "NONE" then 25
  else 25.

(** The [while] loop over [count].  Both subsamples are looked up again
    at every test, as in the source; the second operand of [&&] is only
    evaluated when the first holds. *)
Fixpoint accumulate (fuel : nat) (pclpatchlist aclpatchlist : ClassificationList)
  (subsamplenumber : Z) (count : Z) (conmatrix : Matrix) : outcome Matrix :=
  match fuel with
  | O => Unfinished
  | S fuel' =>
      match subscript pclpatchlist (subsamplenumber - 1) with
      | None => Undefined
      | Some pclsub =>
          if count <? Z.of_nat (List.length pclsub) then
            match subscript aclpatchlist (subsamplenumber - 1) with
            | None => Undefined
            | Some aclsub =>
                if count <? Z.of_nat (List.length aclsub) then
                  match subscript pclsub count, subscript aclsub count with
                  | Some p, Some a =>
                      let pclindex := pclindex_of (classification p) in
                      let aclindex := aclindex_of (classification a) in
                      accumulate fuel' pclpatchlist aclpatchlist subsamplenumber
                        (uint32_wrap (count + 1))
                        (Matrix_incr conmatrix pclindex aclindex)
                  | _, _ => Undefined
                  end
                else Returned conmatrix
            end
          else Returned conmatrix
      end
  end.

(** Lines 190-255: the matrix after the loop.  When the loop ends, it ends
    within one turn more than the selected pcl subsample is long. *)
Definition conmatrix_of (pclpatchlist aclpatchlist : ClassificationList)
  (subsamplenumber : Z) : outcome Matrix :=
  let turns :=
    match subscript pclpatchlist (subsamplenumber - 1) with
    | Some pclsub => List.length pclsub
    | None => O
    end in
  accumulate (S turns) pclpatchlist aclpatchlist subsamplenumber 0
    (Matrix_new 26 26).

(** The values a [uint32_t] counter takes in [for (i = 0; i < d; ++i)]. *)
Definition counter_values (d : Z) : list Z := map Z.of_nat (seq 0 (Z.to_nat d)).

(** [%d] *)
Definition format_d (v : Z) : string := NilZero.string_of_int (Z.to_int v).

Definition tab : ascii := "009"%char.

(** [fprintf(fp, ...)] on a file opened with ["a+"]: the text goes to the
    end of the file.  The file is its contents. *)
Definition fprintf (fp : string) (text : string) : string := fp ++ text.

(** The inner [for] loop and the [fprintf(fp,"\n")] after it. *)
Definition write_row (conmatrix : Matrix) (fp : string) (i : Z) : string :=
  let fp' :=
    fold_left
      (fun fp j => fprintf fp (format_d (cell conmatrix i j) ++ String tab EmptyString))
      (counter_values (Dim2 conmatrix)) fp in
  fprintf fp' (String newline EmptyString).

(** The outer [for] loop, between [fopen] and [fclose]. *)
Definition write_matrix (conmatrix : Matrix) (fp : string) : string :=
  fold_left (write_row conmatrix) (counter_values (Dim1 conmatrix)) fp.

(** [PatchExtractor::WriteSort]: from the two classification streams as
    they are once constructed, the subsample number of the extractor
    ([uint8_t]) and the contents of [ConfusionMatrix.txt] before the call
    (empty when there is no such file), the contents after it.  The file
    is taken to open. *)
Definition WriteSort (pclfilestream aclfilestream : istream)
  (subsamplenumber : Z) (confile : string) : outcome string :=
  match ClassificationList_of pclfilestream with
  | None => Unfinished
  | Some pclpatchlist =>
      match ClassificationList_of aclfilestream with
      | None => Unfinished
      | Some aclpatchlist =>
          match conmatrix_of pclpatchlist aclpatchlist subsamplenumber with
          | Returned conmatrix => Returned (write_matrix conmatrix confile)
          | Thrown what => Thrown what
          | Undefined => Undefined
          | Unfinished => Unfinished
          end
      end
  end.

(* ================================================================== *)
(** ** Reference definitions

    What the statements below compare the program with: the body scanner
    as a recursion over the characters of the stream, and the notions the
    specification words its properties with. *)

(** The records [SubsampleClassifications] pushes, by recursion over the
    characters still in the stream: white space is passed over, a
    delimiter pushes a record, and [<] is the last character looked at. *)
Fixpoint records_from (ssn : Z) (l : list ascii) (className : string) (index : Z)
  : list PatchClassification :=
  match l with
  | [] => []
  | c :: l' =>
      if isspace c then records_from ssn l' className index
      else if is_delimiter c then
        emitted ssn index className ::
        (if Ascii.eqb c langle then []
         else records_from ssn l' EmptyString (uint32_wrap (index + 1)))
      else records_from ssn l' (push_back className c) index
  end.

(** The stream [SubsampleClassifications] leaves behind: the iterator has
    extracted one character more than the loop has looked at. *)
Fixpoint stream_after (l : list ascii) : istream :=
  match l with
  | [] => mk_istream [] true true
  | c :: l' =>
      if isspace c then stream_after l'
      else if Ascii.eqb c langle then fst (read_char (opened l'))
      else stream_after l'
  end.

Definition body_records (ssn : Z) (stream : istream) : list PatchClassification :=
  if good stream then records_from ssn (buf stream) EmptyString 0 else [].

Definition body_rest (stream : istream) : istream :=
  if good stream then stream_after (buf stream)
  else mk_istream (buf stream) (eofbit stream) true.

(** The delimiters the loop looks at: every [,] before the first [<], and
    that [<]. *)
Fixpoint delimiters_consumed (l : list ascii) : nat :=
  match l with
  | [] => O
  | c :: l' =>
      if Ascii.eqb c langle then 1%nat
      else if Ascii.eqb c comma then S (delimiters_consumed l')
      else delimiters_consumed l'
  end.

(** The character sequences between two enclosing delimiters, up to the
    first [<]; [cur] is the part of the current one already passed. *)
Fixpoint segments (cur : list ascii) (l : list ascii) : list (list ascii) :=
  match l with
  | [] => []
  | c :: l' =>
      if is_delimiter c then
        cur :: (if Ascii.eqb c langle then [] else segments [] l')
      else segments (cur ++ [c]) l'
  end.

(** The label emitted for a character sequence once its white space is
    gone. *)
Definition label_of (token : list ascii) : string :=
  match filter (fun c => negb (isspace c)) token with
  | [] => "NONE"
  | c :: t => string_of_list_ascii (c :: t)
  end.

(** The fixed vocabulary of the specification, in index order. *)
Definition vocabulary : list string :=
    ["RBC";
     "DRBC";
     "RBCC";
     "WBC";
     "WBCC";
     "BACT";
     "SQEP";
     "NSE";
     "TREP";
     "REEP";
     "CAOX";
     "URIC";
     "TPO4";
     "CAPH";
     "CYST";
     "LEUC";
     "AMOR";
     "CELL";
     "GRAN";
     "MUCS";
     "SPRM";
     "BYST";
     "HYST";
     "TRCH";
     "BUBB"].

(** The position of a label in a table, counting from [i]. *)
Fixpoint position (label : string) (table : list string) (i : Z) : option Z :=
  match table with
  | [] => None
  | entry :: table' =>
      if String.eqb label entry then Some i else position label table' (i + 1)
  end.

(** The label-to-index mapping as the specification words it: the
    position in the vocabulary, and the last index for anything else. *)
Definition vocabulary_index (label : string) : Z :=
  match position label vocabulary 0 with
  | Some i => i
  | None => 25
  end.



(** One line of a classification file: leading white space, the opening
    tag, the body, the closing tag and the end of the line. *)
Definition class_line (line : list ascii * list ascii) : list ascii :=
  (fst line ++ list_ascii_of_string "<CLASS>" ++ snd line
   ++ list_ascii_of_string "</CLASS>" ++ [newline])%list.

(** A line is well formed when what precedes its opening tag is white
    space and its body holds no [<]. *)
Definition well_formed_line (line : list ascii * list ascii) : Prop :=
  forallb isspace (fst line) = true /\ ~ In langle (snd line).


(** A one-based selector that is 0 or exceeds the number of subsamples. *)
Definition out_of_range (cl : ClassificationList) (subsamplenumber : Z) : Prop :=
  subsamplenumber < 1 \/ Z.of_nat (List.length cl) < subsamplenumber.

(** Position [k] holds a pcl label of index [i] and an acl label of index
    [j]. *)
Definition agree (i j : Z) (A B : list PatchClassification) (k : nat) : bool :=
  match nth_error A k, nth_error B k with
  | Some p, Some a =>
      (pclindex_of (classification p) =? i)
      && (aclindex_of (classification a) =? j)
  | _, _ => false
  end.

(** The number of positions below [n] that [agree] on [(i,j)]. *)
Definition agreeing_positions (i j : Z) (A B : list PatchClassification)
  (n : nat) : nat :=
  List.length (filter (agree i j A B) (seq 0 n)).

Definition join (l : list string) : string := fold_right append EmptyString l.

(** A row of the written table: each cell followed by a tab, then the end
    of the line. *)
Definition row_text (m : Matrix) (i : Z) : string :=
  join (map (fun j => format_d (cell m i j) ++ String tab EmptyString)
          (counter_values 26))
  ++ String newline EmptyString.

Definition matrix_text (m : Matrix) : string :=
  join (map (row_text m) (counter_values 26)).

Fixpoint occurrences (c : ascii) (s : string) : nat :=
  match s with
  | EmptyString => O
  | String c' s' => ((if Ascii.eqb c' c then 1 else 0) + occurrences c s')%nat
  end.

(* ================================================================== *)
(** ** ClassificationList.h: a record against an index *)

(** [operator == (const PatchClassification& A, uint32_t B)] *)
Definition PatchClassification_eq (A : PatchClassification) (B : Z) : bool :=
  patchIndex A =? B.

(* ================================================================== *)
(** ** CompareList.cpp: the extractor and its driver

    The files the program reads and writes are a part of the state: which
    paths open for reading and with what contents, and which open for
    appending. *)

Record filesystem : Type := mk_filesystem
  { file : string -> option string;   (* contents of the files that exist *)
    appendable : string -> bool       (* [fopen(path,"a+")] succeeds *) }.

Definition nul : ascii := "000"%char.

(** What a callee sees of [s.c_str()]: the characters before the first
    NUL. *)
Fixpoint c_str (s : string) : string :=
  match s with
  | EmptyString => EmptyString
  | String c s' => if Ascii.eqb c nul then EmptyString else String c (c_str s')
  end.

(** [std::ifstream stream(path.c_str())]: a stream over the contents of
    the file, or a stream with [failbit] set when the file does not
    open. *)
Definition ifstream (fs : filesystem) (path : string) : istream :=
  match file fs (c_str path) with
  | Some contents => istream_of contents
  | None => mk_istream [] false true
  end.

Definition write_file (fs : filesystem) (path contents : string) : filesystem :=
  mk_filesystem
    (fun p => if String.eqb p path then Some contents else file fs p)
    (appendable fs).

Record PatchExtractor : Type := mk_PatchExtractor
  { outputdirectory : string;   (* the output directory containing images *)
    inputdirectory : string;    (* the input directory containing runfiles *)
    subsamplenumber : Z         (* uint8_t, the runfile subsample to write *) }.

(** [PatchExtractor::PatchExtractor(destination, sample)]; the input
    directory starts as the empty string. *)
Definition PatchExtractor_new (destination : string) (sample : Z) : PatchExtractor :=
  mk_PatchExtractor destination EmptyString sample.

(** The path [WriteSort] opens for appending. *)
Definition confile_path (this : PatchExtractor) : string :=
  c_str (outputdirectory this ++ "/" ++ "ConfusionMatrix.txt").

(** [PatchExtractor::WriteSort(runfilename)] with its files: the two
    classification files are opened and parsed, the matrix is accumulated,
    and the table is appended to [ConfusionMatrix.txt] in the output
    directory.  When that file does not open, [fprintf] is handed a null
    pointer. *)
Definition PatchExtractor_WriteSort (this : PatchExtractor) (fs : filesystem)
  (runfilename : string) : outcome filesystem :=
  let pclfilestream := ifstream fs (inputdirectory this ++ runfilename ++ ".pcl") in
  let aclfilestream := ifstream fs (inputdirectory this ++ runfilename ++ ".acl") in
  let before :=
    match file fs (confile_path this) with
    | Some contents => contents
    | None => EmptyString
    end in
  match WriteSort pclfilestream aclfilestream (subsamplenumber this) before with
  | Returned after =>
      if appendable fs (confile_path this)
      then Returned (write_file fs (confile_path this) after)
      else Undefined
  | Thrown what => Thrown what
  | Undefined => Undefined
  | Unfinished => Unfinished
  end.

(** [std::cout << "Processing -> " << nextline.c_str() << std::endl] *)
Definition processing (cout nextline : string) : string :=
  cout ++ "Processing -> " ++ c_str nextline ++ String newline EmptyString.

(** The [while (!runfileliststream.eof())] loop of [PatchExtractor::Sort]:
    the files and the standard output after it. *)
Fixpoint process_runfiles (fuel : nat) (this : PatchExtractor) (fs : filesystem)
  (cout : string) (runfileliststream : istream) : outcome (filesystem * string) :=
  match fuel with
  | O => Unfinished
  | S fuel' =>
      if eofbit runfileliststream then Returned (fs, cout)
      else
        let '(stream', nextline, _) :=
          getline runfileliststream EmptyString newline in
        match PatchExtractor_WriteSort this fs (c_str nextline) with
        | Returned fs' =>
            process_runfiles fuel' this fs' (processing cout nextline) stream'
        | Thrown what => Thrown what
        | Undefined => Undefined
        | Unfinished => Unfinished
        end
  end.

(** [PatchExtractor::Sort(runfilelist)]: the first line of the list is the
    input directory, every further line a run. *)
Definition PatchExtractor_Sort (fuel : nat) (this : PatchExtractor)
  (fs : filesystem) (cout : string) (runfilelist : string)
  : outcome (filesystem * string) :=
  let runfileliststream := ifstream fs runfilelist in
  let '(stream1, directory, _) :=
    getline runfileliststream (inputdirectory this) newline in
  process_runfiles fuel
    (mk_PatchExtractor (outputdirectory this) directory (subsamplenumber this))
    fs cout stream1.

(** [APRT::Sort(runfilelist, destination, sample)].  When the list opens,
    every turn of the loop but the last extracts a character or raises
    [eofbit]. *)
Definition Sort (fs : filesystem) (cout : string)
  (runfilelist destination : string) (sample : Z) : outcome (filesystem * string) :=
  PatchExtractor_Sort (2 + List.length (buf (ifstream fs runfilelist)))
    (PatchExtractor_new destination sample) fs cout runfilelist.

(* ================================================================== *)
(** ** Reference definitions for the driver and the matrix *)

(** The fields of a character sequence separated by the end of a line:
    one more than there are ends of line. *)
Fixpoint fields (l : list ascii) : list (list ascii) :=
  match l with
  | [] => [[]]
  | c :: l' =>
      if Ascii.eqb c newline then [] :: fields l'
      else match fields l' with
           | f :: rest => (c :: f) :: rest
           | [] => [[c]]
           end
  end.

(** [WriteSort] on each of the given lines in turn, each announced on the
    standard output. *)
Fixpoint process_lines (this : PatchExtractor) (fs : filesystem) (cout : string)
  (lines : list string) : outcome (filesystem * string) :=
  match lines with
  | [] => Returned (fs, cout)
  | nextline :: lines' =>
      match PatchExtractor_WriteSort this fs (c_str nextline) with
      | Returned fs' => process_lines this fs' (processing cout nextline) lines'
      | Thrown what => Thrown what
      | Undefined => Undefined
      | Unfinished => Unfinished
      end
  end.

(** What a file holds; nothing when there is no such file. *)
Definition contents_of (fs : filesystem) (path : string) : string :=
  match file fs path with
  | Some contents => contents
  | None => EmptyString
  end.

(** The line [Sort] writes to the standard output for a run. *)
Definition announcement (nextline : string) : string :=
  "Processing -> " ++ c_str nextline ++ String newline EmptyString.

(** A small file system: a list of one run and its two classification
    files; with [closed] the list ends with an end of line. *)
Definition example_files (closed : bool) : filesystem :=
  mk_filesystem
    (fun p =>
       if String.eqb p "list" then
         Some ("in/" ++ String newline "r1" ++ (if closed then String newline "" else ""))
       else if String.eqb p "in/r1.pcl" then Some "<CLASS>RBC,WBC,"
       else if String.eqb p "in/r1.acl" then Some "<CLASS>RBC,RBC,"
       else None)
    (fun _ => true).

(** A record with its subsample number moved on by [d]. *)
Definition renumber (d : Z) (r : PatchClassification) : PatchClassification :=
  mk_PatchClassification (uint32_wrap (subsampleNumber r + d))
    (patchIndex r) (classification r).







(** The sum of a quantity over a list of index pairs. *)
Definition sum_over {X : Type} (f : X -> Z) (l : list X) : Z :=
  fold_right (fun x acc => f x + acc) 0 l.

(** All cells of a 26 by 26 matrix, and its diagonal. *)
Definition all_cells : list (Z * Z) :=
  list_prod (counter_values 26) (counter_values 26).

Definition sum_cells (m : Matrix) : Z :=
  sum_over (fun ij => cell m (fst ij) (snd ij)) all_cells.

Definition trace (m : Matrix) : Z :=
  sum_over (fun i => cell m i i) (counter_values 26).

(** A character that can be part of a class name. *)
Definition name_char (c : ascii) : bool := negb (isspace c) && negb (is_delimiter c).

(** Case analysis on every comparison of [label] in a chain. *)
Ltac chain_cases label :=
  repeat match goal with
         | |- context [String.eqb label ?entry] => destruct (String.eqb label entry)
         end.

(* ================================================================== *)
(** ** The stream operations *)

Lemma good_opened (s : istream) : good s = true -> s = opened (buf s).
Proof.
  destruct s as [b e f]; unfold good, opened; simpl.
  destruct e, f; simpl; intros H; try discriminate H; reflexivity.
Qed.

Lemma skipws_length (l : list ascii) : (List.length (skipws l) <= List.length l)%nat.
Proof.
  induction l as [|c l IH]; simpl; [lia|].
  destruct (isspace c); simpl; lia.
Qed.

Lemma skipws_head (l rest : list ascii) (c : ascii) :
  skipws l = c :: rest -> isspace c = false.
Proof.
  induction l as [|a l IH]; simpl; [discriminate|].
  destruct (isspace a) eqn:E; [exact IH|].
  intros H; injection H as -> _; exact E.
Qed.

Lemma skipws_idem (l : list ascii) : skipws (skipws l) = skipws l.
Proof.
  induction l as [|a l IH]; simpl; [reflexivity|].
  destruct (isspace a) eqn:E; [exact IH|].
  simpl; rewrite E; reflexivity.
Qed.

Lemma read_char_opened (l : list ascii) :
  read_char (opened l) =
  match skipws l with
  | [] => (mk_istream [] true true, None)
  | c :: rest => (opened rest, Some c)
  end.
Proof. reflexivity. Qed.

Lemma read_char_length (s : istream) :
  (List.length (buf (fst (read_char s))) <= List.length (buf s))%nat.
Proof.
  unfold read_char. destruct (negb (good s)); simpl; [lia|].
  pose proof (skipws_length (buf s)) as H.
  destruct (skipws (buf s)); simpl in *; lia.
Qed.

Lemma split_at_length (d : ascii) (l pre post : list ascii) :
  split_at d l = Some (pre, post) -> (List.length post < List.length l)%nat.
Proof.
  revert pre post; induction l as [|c l IH]; simpl; intros pre post; [discriminate|].
  destruct (Ascii.eqb c d).
  - intros H; injection H as _ <-; lia.
  - destruct (split_at d l) as [[p q]|]; [|discriminate].
    intros H; injection H as _ <-. specialize (IH p q eq_refl); lia.
Qed.

Lemma getline_length (s : istream) (input : string) (d : ascii) :
  (List.length (buf (fst (fst (getline s input d)))) <= List.length (buf s))%nat.
Proof.
  unfold getline. destruct (negb (good s)); simpl; [lia|].
  destruct (split_at d (buf s)) as [[p q]|] eqn:E; simpl.
  - apply split_at_length in E; lia.
  - destruct (buf s); simpl; lia.
Qed.

(** A successful [getline] has extracted at least one character. *)
Lemma getline_progress (s s1 : istream) (input input1 : string) (d : ascii) :
  getline s input d = (s1, input1, true) ->
  (List.length (buf s1) < List.length (buf s))%nat.
Proof.
  unfold getline. destruct (negb (good s)); [discriminate|].
  destruct (split_at d (buf s)) as [[p q]|] eqn:E.
  - intros H; injection H as <- _. apply split_at_length in E; exact E.
  - destruct (buf s); [discriminate|].
    intros H; injection H as <- _; simpl; lia.
Qed.

(* ================================================================== *)
(** ** The body scanner against its recursive reading *)

Lemma records_from_skipws (ssn : Z) (l : list ascii) (cn : string) (idx : Z) :
  records_from ssn (skipws l) cn idx = records_from ssn l cn idx.
Proof.
  induction l as [|c l IH]; simpl; [reflexivity|].
  destruct (isspace c) eqn:E; [exact IH|].
  simpl; rewrite E; reflexivity.
Qed.

Lemma stream_after_skipws (l : list ascii) :
  stream_after (skipws l) = stream_after l.
Proof.
  induction l as [|c l IH]; simpl; [reflexivity|].
  destruct (isspace c) eqn:E; [exact IH|].
  simpl; rewrite E; reflexivity.
Qed.

Lemma scan_body_records (ssn : Z) (fuel : nat) :
  forall (l : list ascii) (c : ascii) (cn : string) (idx : Z),
    isspace c = false ->
    (List.length l + 2 <= fuel)%nat ->
    scan_body fuel ssn (opened l) (Some c) cn idx =
    Some (records_from ssn (c :: l) cn idx, stream_after (c :: l)).
Proof.
  induction fuel as [|fuel IH]; intros l c cn idx Hc Hf; [lia|].
  cbn [scan_body]. rewrite read_char_opened.
  cbn [records_from stream_after]. rewrite Hc.
  rewrite read_char_opened. unfold is_delimiter.
  pose proof (skipws_length l) as Hlen.
  destruct (skipws l) as [|c' rest] eqn:Hs.
  - (* the iterator has reached the end of the stream *)
    assert (Hnil : forall cn' idx', records_from ssn l cn' idx' = [])
      by (intros; rewrite <- records_from_skipws, Hs; reflexivity).
    assert (Hend : stream_after l = mk_istream [] true true)
      by (rewrite <- stream_after_skipws, Hs; reflexivity).
    rewrite !Hnil, Hend.
    destruct fuel as [|fuel']; [lia|].
    destruct (Ascii.eqb c langle), (Ascii.eqb c comma); reflexivity.
  - pose proof (skipws_head _ _ _ Hs) as Hc'. simpl in Hlen.
    assert (Hrec : forall cn' idx',
               records_from ssn l cn' idx' = records_from ssn (c' :: rest) cn' idx')
      by (intros; rewrite <- records_from_skipws, Hs; reflexivity).
    assert (Hrest : stream_after l = stream_after (c' :: rest))
      by (rewrite <- stream_after_skipws, Hs; reflexivity).
    rewrite !Hrec, Hrest.
    destruct (Ascii.eqb c langle), (Ascii.eqb c comma); cbn [orb fst];
      try reflexivity;
      rewrite (IH rest c' _ _ Hc') by lia; reflexivity.
Qed.

Lemma SubsampleClassifications_eq (stream : istream) (ssn : Z) :
  SubsampleClassifications stream ssn =
  Some (body_records ssn stream, body_rest stream).
Proof.
  unfold SubsampleClassifications, body_records, body_rest.
  destruct (good stream) eqn:G.
  - rewrite (good_opened _ G) at 1 2. rewrite read_char_opened.
    rewrite <- (records_from_skipws ssn (buf stream)),
            <- (stream_after_skipws (buf stream)).
    pose proof (skipws_length (buf stream)) as Hlen.
    destruct (skipws (buf stream)) as [|c rest] eqn:Hs.
    + reflexivity.
    + apply scan_body_records; [exact (skipws_head _ _ _ Hs)|].
      simpl; lia.
  - unfold read_char. rewrite G. simpl. reflexivity.
Qed.

(* ================================================================== *)
(** ** The constructor loop *)

Lemma stream_after_length (l : list ascii) :
  (List.length (buf (stream_after l)) <= List.length l)%nat.
Proof.
  induction l as [|c l IH]; simpl; [lia|].
  destruct (isspace c); [lia|].
  destruct (Ascii.eqb c langle); [|lia].
  pose proof (read_char_length (opened l)) as H; simpl in H; lia.
Qed.

Lemma body_rest_length (s : istream) :
  (List.length (buf (body_rest s)) <= List.length (buf s))%nat.
Proof.
  unfold body_rest. destruct (good s); simpl; [apply stream_after_length | lia].
Qed.

(** One turn of the loop, with the body scanner replaced by its value. *)
Lemma parse_classes_turn (fuel : nat) (stream : istream) (input : string) (ssn : Z) :
  parse_classes (S fuel) stream input ssn =
  let '(stream1, input1, ok) := getline stream input rangle in
  if ok then
    if String.eqb (trim_left input1) "<CLASS" then
      option_map (cons (body_records (uint32_wrap (ssn + 1)) stream1))
        (parse_classes fuel (body_rest stream1) (trim_left input1)
           (uint32_wrap (ssn + 1)))
    else
      let '(stream2, input2, _) := getline stream1 (trim_left input1) newline in
      parse_classes fuel stream2 input2 ssn
  else Some [].
Proof.
  cbn [parse_classes].
  destruct (getline stream input rangle) as [[stream1 input1] ok].
  destruct ok; [|reflexivity].
  destruct (String.eqb (trim_left input1) "<CLASS"); [|reflexivity].
  rewrite SubsampleClassifications_eq.
  destruct (parse_classes fuel _ _ _); reflexivity.
Qed.

(** With more fuel than characters the loop runs to its end. *)
Lemma parse_classes_total (fuel : nat) :
  forall (stream : istream) (input : string) (ssn : Z),
    (List.length (buf stream) < fuel)%nat ->
    exists cl, parse_classes fuel stream input ssn = Some cl.
Proof.
  induction fuel as [|fuel IH]; intros stream input ssn Hf; [lia|].
  rewrite parse_classes_turn.
  destruct (getline stream input rangle) as [[stream1 input1] ok] eqn:G.
  destruct ok; [|eexists; reflexivity].
  apply getline_progress in G.
  destruct (String.eqb (trim_left input1) "<CLASS").
  - pose proof (body_rest_length stream1) as Hb.
    destruct (IH (body_rest stream1) (trim_left input1) (uint32_wrap (ssn + 1)))
      as [cl Hcl]; [lia|].
    rewrite Hcl. eexists; reflexivity.
  - pose proof (getline_length stream1 (trim_left input1) newline) as Hg.
    destruct (getline stream1 (trim_left input1) newline) as [[stream2 input2] ok2].
    simpl in Hg. apply IH. lia.
Qed.

(** The amount of fuel does not matter once it exceeds the characters. *)
Lemma parse_classes_fuel (fuel : nat) :
  forall (fuel' : nat) (stream : istream) (input : string) (ssn : Z),
    (List.length (buf stream) < fuel)%nat ->
    (List.length (buf stream) < fuel')%nat ->
    parse_classes fuel stream input ssn = parse_classes fuel' stream input ssn.
Proof.
  induction fuel as [|fuel IH]; intros fuel' stream input ssn Hf Hf'; [lia|].
  destruct fuel' as [|fuel']; [lia|].
  rewrite !parse_classes_turn.
  destruct (getline stream input rangle) as [[stream1 input1] ok] eqn:G.
  destruct ok; [|reflexivity].
  apply getline_progress in G.
  destruct (String.eqb (trim_left input1) "<CLASS").
  - pose proof (body_rest_length stream1) as Hb.
    rewrite (IH fuel') by lia. reflexivity.
  - pose proof (getline_length stream1 (trim_left input1) newline) as Hg.
    destruct (getline stream1 (trim_left input1) newline) as [[stream2 input2] ok2].
    simpl in Hg. apply IH; lia.
Qed.

Lemma ClassificationList_of_total (stream : istream) :
  exists cl, ClassificationList_of stream = Some cl.
Proof. apply parse_classes_total. simpl; lia. Qed.

(** Whatever holds of the empty list and is kept by pushing the records of
    a body under the next subsample number holds of every parsed list. *)
Lemma parse_classes_invariant (P : Z -> ClassificationList -> Prop) :
  (forall ssn, P ssn []) ->
  (forall ssn stream rest,
      P (uint32_wrap (ssn + 1)) rest ->
      P ssn (body_records (uint32_wrap (ssn + 1)) stream :: rest)) ->
  forall (fuel : nat) (stream : istream) (input : string) (ssn : Z)
         (cl : ClassificationList),
    parse_classes fuel stream input ssn = Some cl -> P ssn cl.
Proof.
  intros Hnil Hcons.
  induction fuel as [|fuel IH]; intros stream input ssn cl; [discriminate|].
  rewrite parse_classes_turn.
  destruct (getline stream input rangle) as [[stream1 input1] ok].
  destruct ok; [|intros H; injection H as <-; apply Hnil].
  destruct (String.eqb (trim_left input1) "<CLASS").
  - destruct (parse_classes fuel _ _ _) as [rest|] eqn:E; [|discriminate].
    intros H; injection H as <-. apply Hcons. exact (IH _ _ _ _ E).
  - destruct (getline stream1 (trim_left input1) newline) as [[stream2 input2] ok2].
    apply IH.
Qed.

(* ================================================================== *)
(** ** Properties of the records of a body *)

Lemma isspace_not_langle (c : ascii) : isspace c = true -> Ascii.eqb c langle = false.
Proof.
  intros H. destruct (Ascii.eqb_spec c langle) as [->|]; [|reflexivity].
  discriminate H.
Qed.

Lemma isspace_not_comma (c : ascii) : isspace c = true -> Ascii.eqb c comma = false.
Proof.
  intros H. destruct (Ascii.eqb_spec c comma) as [->|]; [|reflexivity].
  discriminate H.
Qed.

Lemma isspace_not_delimiter (c : ascii) : isspace c = true -> is_delimiter c = false.
Proof.
  intros H. unfold is_delimiter.
  rewrite (isspace_not_langle _ H), (isspace_not_comma _ H). reflexivity.
Qed.


Lemma emitted_patchIndex (ssn idx : Z) (cn : string) :
  patchIndex (emitted ssn idx cn) = idx.
Proof. destruct cn; reflexivity. Qed.


Lemma records_from_length (ssn : Z) (l : list ascii) :
  forall (cn : string) (idx : Z),
    List.length (records_from ssn l cn idx) = delimiters_consumed l.
Proof.
  induction l as [|c l IH]; intros cn idx; simpl; [reflexivity|].
  destruct (isspace c) eqn:Hs.
  - rewrite (isspace_not_langle _ Hs), (isspace_not_comma _ Hs). apply IH.
  - unfold is_delimiter.
    destruct (Ascii.eqb c langle) eqn:El.
    + rewrite orb_true_r. reflexivity.
    + rewrite orb_false_r. destruct (Ascii.eqb c comma); simpl; rewrite IH; reflexivity.
Qed.

Lemma uint32_wrap_small (z : Z) : 0 <= z < 2 ^ 32 -> uint32_wrap z = z.
Proof. intros H. unfold uint32_wrap, uint32_modulus. apply Z.mod_small; exact H. Qed.

Lemma uint32_wrap_range (z : Z) : 0 <= uint32_wrap z < 2 ^ 32.
Proof. unfold uint32_wrap, uint32_modulus. apply Z.mod_pos_bound. lia. Qed.

Lemma uint32_wrap_succ (z : Z) : uint32_wrap (uint32_wrap z + 1) = uint32_wrap (z + 1).
Proof. unfold uint32_wrap, uint32_modulus. apply Z.add_mod_idemp_l. lia. Qed.

(** The [k]-th record pushed from index [idx] on has index [idx + k],
    wrapped. *)
Lemma records_from_patchIndex (ssn : Z) (l : list ascii) :
  forall (cn : string) (idx : Z),
    map patchIndex (records_from ssn l cn idx) =
    match records_from ssn l cn idx with
    | [] => []
    | _ :: t =>
        idx :: map (fun k => uint32_wrap (idx + Z.of_nat k)) (seq 1 (List.length t))
    end.
Proof.
  induction l as [|c l IH]; intros cn idx; simpl; [reflexivity|].
  destruct (isspace c); [apply IH|].
  destruct (is_delimiter c); [|apply IH].
  cbn [map]. rewrite emitted_patchIndex. f_equal.
  destruct (Ascii.eqb c langle); [reflexivity|].
  rewrite IH.
  destruct (records_from ssn l EmptyString (uint32_wrap (idx + 1))) as [|r t];
    [reflexivity|].
  cbn [List.length seq map].
  replace (idx + Z.of_nat 1) with (idx + 1) by lia.
  apply (f_equal (cons _)).
  rewrite <- (seq_shift (List.length t) 1), map_map. apply map_ext. intros k.
  replace (idx + Z.of_nat (S k)) with (idx + 1 + Z.of_nat k) by lia.
  unfold uint32_wrap, uint32_modulus.
  rewrite Z.add_mod_idemp_l by lia. reflexivity.
Qed.

(** Characters after which no delimiter comes push nothing. *)
Lemma records_from_no_delimiter (ssn : Z) (tail : list ascii) :
  (forall c, In c tail -> is_delimiter c = false) ->
  forall (cn : string) (idx : Z), records_from ssn tail cn idx = [].
Proof.
  induction tail as [|c tail IH]; intros H cn idx; simpl; [reflexivity|].
  rewrite (H c (or_introl eq_refl)).
  destruct (isspace c); apply IH; intros d Hd; apply H; right; exact Hd.
Qed.

Lemma records_from_dangling (ssn : Z) (pre tail : list ascii) :
  (forall c, In c tail -> is_delimiter c = false) ->
  forall (cn : string) (idx : Z),
    records_from ssn (pre ++ tail) cn idx = records_from ssn pre cn idx.
Proof.
  intros H. induction pre as [|c pre IH]; intros cn idx; simpl.
  - apply records_from_no_delimiter; exact H.
  - rewrite !IH. reflexivity.
Qed.

Lemma stream_after_no_langle (l : list ascii) :
  ~ In langle l -> stream_after l = mk_istream [] true true.
Proof.
  induction l as [|c l IH]; intros H; simpl; [reflexivity|].
  assert (Hc : Ascii.eqb c langle = false).
  { destruct (Ascii.eqb_spec c langle) as [->|]; [|reflexivity].
    exfalso; apply H; left; reflexivity. }
  rewrite Hc. destruct (isspace c); apply IH; intros Hin; apply H; right; exact Hin.
Qed.

(** A body closed by [<]: what follows the [<] does not reach the records,
    and the stream is left one character into what follows. *)
Lemma records_from_closed (ssn : Z) (body rest : list ascii) :
  ~ In langle body ->
  forall (cn : string) (idx : Z),
    records_from ssn (body ++ langle :: rest) cn idx =
    records_from ssn (body ++ [langle]) cn idx.
Proof.
  induction body as [|c body IH]; intros H cn idx.
  - reflexivity.
  - simpl. rewrite !IH by (intros Hin; apply H; right; exact Hin).
    assert (Hc : Ascii.eqb c langle = false).
    { destruct (Ascii.eqb_spec c langle) as [->|]; [|reflexivity].
      exfalso; apply H; left; reflexivity. }
    rewrite Hc. reflexivity.
Qed.

Lemma stream_after_closed (body rest : list ascii) :
  ~ In langle body ->
  stream_after (body ++ langle :: rest) = fst (read_char (opened rest)).
Proof.
  induction body as [|c body IH]; intros H.
  - reflexivity.
  - simpl. rewrite IH by (intros Hin; apply H; right; exact Hin).
    assert (Hc : Ascii.eqb c langle = false).
    { destruct (Ascii.eqb_spec c langle) as [->|]; [|reflexivity].
      exfalso; apply H; left; reflexivity. }
    rewrite Hc. destruct (isspace c); reflexivity.
Qed.

Lemma string_of_list_ascii_app (a b : list ascii) :
  string_of_list_ascii (a ++ b) = string_of_list_ascii a ++ string_of_list_ascii b.
Proof. induction a as [|c a IH]; simpl; [reflexivity | rewrite IH; reflexivity]. Qed.

Lemma emitted_label (ssn idx : Z) (token : list ascii) :
  classification
    (emitted ssn idx (string_of_list_ascii (filter (fun c => negb (isspace c)) token)))
  = label_of token.
Proof.
  unfold label_of. destruct (filter _ token); reflexivity.
Qed.

(** The labels pushed are the segments between delimiters, each without
    its white space, or ["NONE"] when nothing is left of it. *)
Lemma records_from_labels (ssn : Z) (l : list ascii) :
  forall (cur : list ascii) (idx : Z),
    map classification
      (records_from ssn l
         (string_of_list_ascii (filter (fun c => negb (isspace c)) cur)) idx)
    = map label_of (segments cur l).
Proof.
  induction l as [|c l IH]; intros cur idx; simpl; [reflexivity|].
  destruct (isspace c) eqn:Hs.
  - rewrite (isspace_not_delimiter _ Hs).
    rewrite <- (IH (cur ++ [c])%list idx). rewrite filter_app. simpl. rewrite Hs. simpl.
    rewrite app_nil_r. reflexivity.
  - destruct (is_delimiter c).
    + cbn [map]. rewrite emitted_label. f_equal.
      destruct (Ascii.eqb c langle); [reflexivity|].
      exact (IH [] _).
    + rewrite <- (IH (cur ++ [c])%list idx). rewrite filter_app. simpl.
      rewrite Hs. simpl. rewrite string_of_list_ascii_app. reflexivity.
Qed.

(* ================================================================== *)
(** ** The properties of the body scanner *)

(** C3, as stated, fails: a body that is nothing but its closing [<] does
    not yield zero records.  The [<] is a delimiter like any other, the
    class name is empty when it is met, and one ["NONE"] record is
    pushed. *)
Lemma C3_immediate_terminator_yields_a_record :
  SubsampleClassifications (istream_of "<") 1 =
    Some ([mk_PatchClassification 1 0 "NONE"], mk_istream [] true true)
  /\ ~ (exists rest, SubsampleClassifications (istream_of "<") 1 = Some ([], rest)).
Proof.
  split; [reflexivity|].
  intros [rest H]. vm_compute in H. discriminate H.
Qed.

(** C3, amended: the scanning loop pushes exactly one record per delimiter
    it looks at, the closing [<] included; so a body that is closed at
    once yields exactly one record, ["NONE"] at index 0.  (A stream that
    is not good yields none.) *)
Theorem C3_one_record_per_delimiter :
  forall (stream : istream) (ssn : Z),
    (exists recs rest,
        SubsampleClassifications stream ssn = Some (recs, rest)
        /\ List.length recs =
           if good stream then delimiters_consumed (buf stream) else O)
    /\ (forall tail : list ascii,
           exists rest,
             SubsampleClassifications (opened (langle :: tail)) ssn =
             Some ([mk_PatchClassification ssn 0 "NONE"], rest)).
Proof.
  intros stream ssn. split.
  - exists (body_records ssn stream), (body_rest stream).
    split; [apply SubsampleClassifications_eq|].
    unfold body_records. destruct (good stream); [|reflexivity].
    apply records_from_length.
  - intros tail. exists (body_rest (opened (langle :: tail))).
    rewrite SubsampleClassifications_eq. reflexivity.
Qed.

(** C4, as stated, fails: the label between the start of the body and the
    first comma of [A B,] is not the three characters [A B] of the stream
    but [AB]: the iterator extracts characters with the formatted
    [operator>>], which passes over white space. *)
Lemma C4_white_space_is_not_appended :
  exists recs rest,
    SubsampleClassifications (istream_of "A B,") 1 = Some (recs, rest)
    /\ segments [] (list_ascii_of_string "A B,") = [list_ascii_of_string "A B"]
    /\ map classification recs = ["AB"]
    /\ map classification recs <>
       map string_of_list_ascii (segments [] (list_ascii_of_string "A B,")).
Proof.
  eexists; eexists. split; [reflexivity|].
  split; [reflexivity|]. split; [reflexivity|].
  simpl. discriminate.
Qed.

(** C4, amended: every character the iterator delivers other than [,] and
    [<] is appended to the class name, and the iterator delivers every
    character of the body but white space; so each label pushed is the
    sequence of characters between the two enclosing delimiters without
    its white space, and ["NONE"] when nothing is left. *)
Theorem C4_labels_are_segments_without_white_space :
  forall (stream : istream) (ssn : Z),
    exists recs rest,
      SubsampleClassifications stream ssn = Some (recs, rest)
      /\ map classification recs =
         if good stream then map label_of (segments [] (buf stream)) else [].
Proof.
  intros stream ssn.
  exists (body_records ssn stream), (body_rest stream).
  split; [apply SubsampleClassifications_eq|].
  unfold body_records. destruct (good stream); [|reflexivity].
  exact (records_from_labels ssn (buf stream) [] 0).
Qed.

(** C5: the body [A,,B<] yields exactly the three records ["A"], ["NONE"],
    ["B"] with patch indices 0, 1, 2, whatever the subsample number; so
    does the one-line file [<CLASS>A,,B<], under subsample number 1. *)
Theorem C5_empty_token_is_NONE :
  (forall ssn : Z,
      exists rest,
        SubsampleClassifications (istream_of "A,,B<") ssn =
        Some ([mk_PatchClassification ssn 0 "A";
               mk_PatchClassification ssn 1 "NONE";
               mk_PatchClassification ssn 2 "B"], rest))
  /\ ClassificationList_of (istream_of "<CLASS>A,,B<") =
     Some [[mk_PatchClassification 1 0 "A";
            mk_PatchClassification 1 1 "NONE";
            mk_PatchClassification 1 2 "B"]].
Proof.
  split; [|reflexivity].
  intros ssn. eexists. rewrite SubsampleClassifications_eq. reflexivity.
Qed.

(** C8: characters after which no [,] or [<] comes before the end of the
    stream push no record, and the scanner returns all the same: the
    records of a stream are those of the stream without such a tail.  In
    particular a file whose only tag is followed by such characters is
    parsed to one subsample without records. *)
Theorem C8_dangling_token_is_dropped :
  forall (pre tail : list ascii) (ssn : Z),
    (forall c, In c tail -> is_delimiter c = false) ->
    (exists recs rest rest',
        SubsampleClassifications (opened (pre ++ tail)) ssn = Some (recs, rest)
        /\ SubsampleClassifications (opened pre) ssn = Some (recs, rest'))
    /\ (exists rest,
           SubsampleClassifications (opened tail) ssn = Some ([], rest))
    /\ ClassificationList_of (opened (list_ascii_of_string "<CLASS>" ++ tail))
       = Some [[]].
Proof.
  intros pre tail ssn H. repeat split.
  - exists (body_records ssn (opened pre)),
           (body_rest (opened (pre ++ tail))), (body_rest (opened pre)).
    rewrite !SubsampleClassifications_eq. split; [|reflexivity].
    unfold body_records; simpl. rewrite (records_from_dangling ssn pre tail H).
    reflexivity.
  - exists (body_rest (opened tail)). rewrite SubsampleClassifications_eq.
    unfold body_records; simpl. rewrite (records_from_no_delimiter ssn tail H).
    reflexivity.
  - unfold ClassificationList_of. cbn [Nat.add]. rewrite parse_classes_turn.
    cbn -[parse_classes body_records body_rest].
    unfold body_records, body_rest; cbn [good opened eofbit failbit negb andb buf].
    rewrite (records_from_no_delimiter _ tail H).
    rewrite stream_after_no_langle.
    + destruct (List.length tail); reflexivity.
    + intros Hin. specialize (H _ Hin). discriminate H.
Qed.

Lemma C8_dangling_token_is_dropped_witness :
  (forall c, In c (list_ascii_of_string "WBC") -> is_delimiter c = false)
  /\ (exists recs rest rest',
         SubsampleClassifications
           (opened (list_ascii_of_string "RBC," ++ list_ascii_of_string "WBC")) 1
         = Some (recs, rest)
         /\ SubsampleClassifications (opened (list_ascii_of_string "RBC,")) 1
            = Some (recs, rest')).
Proof.
  assert (H : forall c, In c (list_ascii_of_string "WBC") -> is_delimiter c = false).
  { simpl. intros c [<-|[<-|[<-|[]]]]; reflexivity. }
  split; [exact H|].
  exact (proj1 (C8_dangling_token_is_dropped
                  (list_ascii_of_string "RBC,") (list_ascii_of_string "WBC") 1 H)).
Defined.

(* ================================================================== *)
(** ** The properties of the constructor *)

Lemma body_records_patchIndex (ssn : Z) (stream : istream) :
  map patchIndex (body_records ssn stream) =
  map (fun k => uint32_wrap (Z.of_nat k))
      (seq 0 (List.length (body_records ssn stream))).
Proof.
  unfold body_records. destruct (good stream); [|reflexivity].
  rewrite records_from_patchIndex.
  destruct (records_from ssn (buf stream) EmptyString 0) as [|r t]; [reflexivity|].
  cbn [List.length seq map]. rewrite uint32_wrap_small by lia. reflexivity.
Qed.

Lemma parsed_subsamples_are_bodies (fuel : nat) (stream : istream)
  (input : string) (ssn : Z) (cl : ClassificationList) :
  parse_classes fuel stream input ssn = Some cl ->
  forall sub, In sub cl -> exists ssn' stream', sub = body_records ssn' stream'.
Proof.
  apply (parse_classes_invariant
           (fun _ cl => forall sub, In sub cl ->
                                    exists ssn' stream', sub = body_records ssn' stream')).
  - intros _ sub [].
  - intros ssn0 stream0 rest IH sub [<-|Hin].
    + eexists; eexists; reflexivity.
    + exact (IH sub Hin).
Qed.

(** C9: in every subsample of every parsed stream the patch indices count
    up from 0 in steps of one, without gaps, as far as a [uint32_t]
    counts: the [k]-th record carries [k] modulo 2^32, and so the indices
    of a subsample of at most 2^32 records are exactly 0, 1, ..., n-1. *)
Theorem C9_patch_indices_count_up :
  forall stream : istream,
    exists cl,
      ClassificationList_of stream = Some cl
      /\ forall sub,
           In sub cl ->
           map patchIndex sub =
             map (fun k => uint32_wrap (Z.of_nat k)) (seq 0 (List.length sub))
           /\ (Z.of_nat (List.length sub) <= 2 ^ 32 ->
               map patchIndex sub = map Z.of_nat (seq 0 (List.length sub))).
Proof.
  intros stream. destruct (ClassificationList_of_total stream) as [cl Hcl].
  exists cl. split; [exact Hcl|]. intros sub Hin.
  destruct (parsed_subsamples_are_bodies _ _ _ _ _ Hcl sub Hin) as (ssn' & stream' & ->).
  split; [apply body_records_patchIndex|].
  intros Hn. rewrite body_records_patchIndex.
  apply map_ext_in. intros k Hk. apply in_seq in Hk.
  apply uint32_wrap_small. lia.
Qed.

Lemma C9_patch_indices_count_up_witness :
  exists cl,
    ClassificationList_of (istream_of "<CLASS>A,,B<") = Some cl
    /\ forall sub, In sub cl -> map patchIndex sub = [0; 1; 2].
Proof.
  destruct (C9_patch_indices_count_up (istream_of "<CLASS>A,,B<")) as (cl & Hcl & H).
  exists cl. split; [exact Hcl|]. intros sub Hin.
  destruct (H sub Hin) as [_ Hb].
  vm_compute in Hcl. injection Hcl as <-.
  destruct Hin as [<-|[]].
  apply Hb. simpl. lia.
Defined.

Lemma split_at_found (d : ascii) (pre post : list ascii) :
  (forall c, In c pre -> Ascii.eqb c d = false) ->
  split_at d (pre ++ d :: post) = Some (pre, post).
Proof.
  induction pre as [|c pre IH]; intros H; simpl.
  - rewrite Ascii.eqb_refl. reflexivity.
  - rewrite (H c (or_introl eq_refl)).
    rewrite IH by (intros a Ha; apply H; right; exact Ha). reflexivity.
Qed.

Lemma trim_left_white_space (ws l : list ascii) :
  forallb isspace ws = true ->
  trim_left (string_of_list_ascii (ws ++ l)) = trim_left (string_of_list_ascii l).
Proof.
  induction ws as [|c ws IH]; simpl; [reflexivity|].
  intros H. apply andb_prop in H as [Hc Hws]. rewrite Hc. exact (IH Hws).
Qed.

Lemma isspace_not_rangle (c : ascii) : isspace c = true -> Ascii.eqb c rangle = false.
Proof.
  intros H. destruct (Ascii.eqb_spec c rangle) as [->|]; [|reflexivity].
  discriminate H.
Qed.

(** The two turns of the loop a well-formed line takes: the first pushes
    the records of its body, the second discards what the scanner left of
    the closing tag. *)
Lemma parse_class_line (line : list ascii * list ascii) (rest : list ascii)
  (fuel : nat) (input : string) (ssn : Z) :
  well_formed_line line ->
  parse_classes (S (S fuel)) (opened (class_line line ++ rest)) input ssn =
  option_map
    (cons (body_records (uint32_wrap (ssn + 1)) (opened (snd line ++ [langle]))))
    (parse_classes fuel (opened rest) EmptyString (uint32_wrap (ssn + 1))).
Proof.
  destruct line as [ws body]. intros [Hws Hbody]; simpl in Hws, Hbody.
  rewrite parse_classes_turn.
  assert (Hsplit :
            split_at rangle (class_line (ws, body) ++ rest) =
            Some ((ws ++ list_ascii_of_string "<CLASS")%list,
                  (body ++ list_ascii_of_string "</CLASS>" ++ newline :: rest)%list)).
  { unfold class_line; cbn [fst snd].
    replace ((ws ++ list_ascii_of_string "<CLASS>" ++ body
               ++ list_ascii_of_string "</CLASS>" ++ [newline]) ++ rest)%list
      with ((ws ++ list_ascii_of_string "<CLASS") ++ rangle
              :: (body ++ list_ascii_of_string "</CLASS>" ++ newline :: rest))%list.
    - apply split_at_found. intros c Hc. apply in_app_or in Hc as [Hc|Hc].
      + apply isspace_not_rangle. rewrite forallb_forall in Hws. exact (Hws c Hc).
      + simpl in Hc. repeat (destruct Hc as [<-|Hc]; [reflexivity|]). destruct Hc.
    - repeat rewrite <- app_assoc. simpl. repeat rewrite <- app_assoc.
      reflexivity. }
  unfold getline at 1. cbn [good opened eofbit failbit negb andb buf].
  rewrite Hsplit. cbn iota beta.
  rewrite (trim_left_white_space ws _ Hws).
  change (trim_left (string_of_list_ascii (list_ascii_of_string "<CLASS")))
    with "<CLASS".
  change (String.eqb "<CLASS" "<CLASS") with true. cbn iota.
  assert (Hrec : body_records (uint32_wrap (ssn + 1))
                   (mk_istream (body ++ list_ascii_of_string "</CLASS>" ++ newline :: rest)
                      false false)
                 = body_records (uint32_wrap (ssn + 1)) (opened (body ++ [langle]))).
  { unfold body_records; cbn [good opened eofbit failbit negb andb buf].
    apply (records_from_closed _ body _ Hbody). }
  assert (Hrest : body_rest
                    (mk_istream (body ++ list_ascii_of_string "</CLASS>" ++ newline :: rest)
                       false false)
                  = opened (list_ascii_of_string "CLASS>" ++ newline :: rest)).
  { unfold body_rest; cbn [good opened eofbit failbit negb andb buf].
    change (body ++ list_ascii_of_string "</CLASS>" ++ newline :: rest)%list
      with (body ++ langle :: list_ascii_of_string "/CLASS>" ++ newline :: rest)%list.
    rewrite (stream_after_closed body _ Hbody). reflexivity. }
  rewrite Hrec, Hrest.
  (* the second turn runs on the characters [CLASS>] and the newline *)
  reflexivity.
Qed.

Lemma class_line_length (line : list ascii * list ascii) :
  (2 <= List.length (class_line line))%nat.
Proof.
  unfold class_line. rewrite !length_app. simpl. lia.
Qed.







(** A line without [>] in front of a [<CLASS>] line takes the tag with it:
    [getline] reads up to the first [>], across the end of the line, and
    what it has read is not [<CLASS]. *)
Example line_without_tag_hides_the_next_tag :
  ClassificationList_of
    (opened (list_ascii_of_string "junk line" ++ newline
               :: list_ascii_of_string "<CLASS>RBC,WBC,<CLASS>NONE,RBC,<"))
  = Some [].
Proof. reflexivity. Qed.


(* ================================================================== *)
(** ** The label-to-index chains *)

Lemma pclindex_of_vocabulary (label : string) :
  pclindex_of label = vocabulary_index label.
Proof.
  unfold pclindex_of, vocabulary_index, vocabulary. cbn [position].
  chain_cases label; reflexivity.
Qed.

Lemma aclindex_of_pclindex_of (label : string) :
  aclindex_of label = pclindex_of label.
Proof. reflexivity. Qed.

Lemma pclindex_of_range (label : string) : 0 <= pclindex_of label <= 25.
Proof. unfold pclindex_of. chain_cases label; lia. Qed.

Lemma position_not_in (label : string) (table : list string) :
  ~ In label table -> forall i, position label table i = None.
Proof.
  induction table as [|entry table IH]; intros H i; simpl; [reflexivity|].
  destruct (String.eqb_spec label entry) as [->|_].
  - exfalso; apply H; left; reflexivity.
  - apply IH. intros Hin; apply H; right; exact Hin.
Qed.

(** C6: each of the two chains maps every label to one index between 0
    and 25, and they are one and the same function; that function is the
    position of the label in the vocabulary, found by exact comparison
    (so neither another case nor a leading or trailing blank matches),
    and 25 for every label that is not in the vocabulary, ["NONE"]
    included. *)
Theorem C6_label_index_is_total :
  forall label : string,
    0 <= pclindex_of label <= 25
    /\ aclindex_of label = pclindex_of label
    /\ pclindex_of label = vocabulary_index label
    /\ (~ In label vocabulary -> pclindex_of label = 25)
    /\ pclindex_of "NONE" = 25
    /\ pclindex_of "RBC" = 0 /\ pclindex_of "rbc" = 25
    /\ pclindex_of " RBC" = 25 /\ pclindex_of "RBC " = 25
    /\ pclindex_of "BUBB" = 24 /\ pclindex_of "" = 25.
Proof.
  intros label.
  split; [apply pclindex_of_range|].
  split; [apply aclindex_of_pclindex_of|].
  split; [apply pclindex_of_vocabulary|].
  split; [|repeat split; reflexivity].
  intros H. rewrite pclindex_of_vocabulary. unfold vocabulary_index.
  rewrite (position_not_in label vocabulary H). reflexivity.
Qed.

Lemma C6_label_index_is_total_witness :
  ~ In "PLATELET" vocabulary /\ pclindex_of "PLATELET" = 25.
Proof.
  assert (H : ~ In "PLATELET" vocabulary).
  { unfold vocabulary. simpl. intros H.
    repeat (destruct H as [H|H]; [discriminate H|]). exact H. }
  split; [exact H|].
  exact (proj1 (proj2 (proj2 (proj2 (C6_label_index_is_total "PLATELET")))) H).
Defined.

(* ================================================================== *)
(** ** The accumulation loop *)

Lemma subscript_nat {A : Type} (v : list A) (k : nat) :
  subscript v (Z.of_nat k) = nth_error v k.
Proof.
  unfold subscript. destruct (Z.ltb_spec (Z.of_nat k) 0); [lia|].
  rewrite Nat2Z.id. reflexivity.
Qed.

Lemma int32_wrap_small (z : Z) : - 2 ^ 31 <= z < 2 ^ 31 -> int32_wrap z = z.
Proof. intros H. unfold int32_wrap. rewrite Z.mod_small; lia. Qed.

Section Accumulate.

Variables pclpatchlist aclpatchlist : ClassificationList.
Variable subsamplenumber : Z.
Variables A B : list PatchClassification.
Hypothesis pcl_selected : subscript pclpatchlist (subsamplenumber - 1) = Some A.
Hypothesis acl_selected : subscript aclpatchlist (subsamplenumber - 1) = Some B.

Variable n : nat.
Hypothesis n_shorter : n = Nat.min (List.length A) (List.length B).
Hypothesis cells_fit : Z.of_nat n < 2 ^ 31.

(** From [count] on, the loop adds to each cell the number of positions
    still to come that agree on it. *)
Lemma accumulate_from (todo : nat) :
  forall (count fuel : nat) (conmatrix : Matrix),
    (count + todo = n)%nat ->
    (todo < fuel)%nat ->
    (forall i j, 0 <= cell conmatrix i j <= Z.of_nat count) ->
    exists m,
      accumulate fuel pclpatchlist aclpatchlist subsamplenumber
        (Z.of_nat count) conmatrix = Returned m
      /\ Dim1 m = Dim1 conmatrix /\ Dim2 m = Dim2 conmatrix
      /\ forall i j,
           cell m i j =
           cell conmatrix i j
           + Z.of_nat (List.length (filter (agree i j A B) (seq count todo))).
Proof.
  induction todo as [|todo IH]; intros count fuel conmatrix Hn Hf Hcells;
    (destruct fuel as [|fuel]; [lia|]); cbn [accumulate];
    rewrite pcl_selected, acl_selected.
  - exists conmatrix. split.
    + destruct (Z.ltb_spec (Z.of_nat count) (Z.of_nat (List.length A)));
        [|reflexivity].
      destruct (Z.ltb_spec (Z.of_nat count) (Z.of_nat (List.length B)));
        [|reflexivity].
      rewrite n_shorter in *. lia.
    + repeat split. intros i j. simpl. lia.
  - assert (HA : (count < List.length A)%nat) by (rewrite n_shorter in *; lia).
    assert (HB : (count < List.length B)%nat) by (rewrite n_shorter in *; lia).
    destruct (Z.ltb_spec (Z.of_nat count) (Z.of_nat (List.length A))); [|lia].
    destruct (Z.ltb_spec (Z.of_nat count) (Z.of_nat (List.length B))); [|lia].
    rewrite !subscript_nat.
    destruct (nth_error A count) as [p|] eqn:Hp;
      [|apply nth_error_None in Hp; lia].
    destruct (nth_error B count) as [a|] eqn:Ha;
      [|apply nth_error_None in Ha; lia].
    cbn zeta.
    replace (uint32_wrap (Z.of_nat count + 1)) with (Z.of_nat (S count))
      by (rewrite uint32_wrap_small; lia).
    destruct (IH (S count) fuel
                (Matrix_incr conmatrix (pclindex_of (classification p))
                   (aclindex_of (classification a))))
      as (m & Hm & Hd1 & Hd2 & Hcell); [lia | lia | |].
    + intros i j. cbn [cell Matrix_incr].
      destruct ((i =? _) && (j =? _)).
      * specialize (Hcells (pclindex_of (classification p))
                      (aclindex_of (classification a))).
        rewrite int32_wrap_small; lia.
      * specialize (Hcells i j). lia.
    + exists m. split; [exact Hm|]. split; [exact Hd1|]. split; [exact Hd2|].
      intros i j. rewrite Hcell. cbn [seq filter cell Matrix_incr].
      unfold agree at 2. rewrite Hp, Ha.
      rewrite (Z.eqb_sym i), (Z.eqb_sym j).
      destruct ((pclindex_of (classification p) =? i)
                && (aclindex_of (classification a) =? j)) eqn:E.
      * apply andb_prop in E as [Ei Ej].
        apply Z.eqb_eq in Ei, Ej. subst i j.
        specialize (Hcells (pclindex_of (classification p))
                      (aclindex_of (classification a))).
        rewrite int32_wrap_small by lia. cbn [List.length]. lia.
      * lia.
Qed.

Lemma conmatrix_of_counts :
  exists m,
    conmatrix_of pclpatchlist aclpatchlist subsamplenumber = Returned m
    /\ Dim1 m = 26 /\ Dim2 m = 26
    /\ forall i j, cell m i j = Z.of_nat (agreeing_positions i j A B n).
Proof.
  unfold conmatrix_of. rewrite pcl_selected.
  destruct (accumulate_from n 0 (S (List.length A)) (Matrix_new 26 26))
    as (m & Hm & Hd1 & Hd2 & Hcell).
  - reflexivity.
  - rewrite n_shorter. lia.
  - intros i j. simpl. lia.
  - exists m. split; [exact Hm|]. split; [exact Hd1|]. split; [exact Hd2|].
    intros i j. rewrite Hcell. reflexivity.
Qed.

End Accumulate.

Lemma agreeing_positions_firstn (i j : Z) (A B : list PatchClassification) (n : nat) :
  agreeing_positions i j (firstn n A) (firstn n B) n = agreeing_positions i j A B n.
Proof.
  unfold agreeing_positions. f_equal. apply filter_ext_in.
  intros k Hk. apply in_seq in Hk. unfold agree.
  rewrite !nth_error_firstn.
  destruct (Nat.ltb_spec k n); [reflexivity|lia].
Qed.

(** C2: for two classification lists and a selector within range for
    both, with [n] the length of the shorter selected subsample, after the
    loop cell [(i,j)] is the number of positions [k < n] whose pcl label
    has index [i] and whose acl label has index [j]; positions from [n] on
    reach no cell: the lists cut to their first [n] records give the same
    cells.  (Cells are [int32_t] and the counter is [uint32_t]: [n] is
    taken below 2^31.) *)
Theorem C2_cells_count_aligned_pairs :
  forall (pclpatchlist aclpatchlist : ClassificationList) (subsamplenumber : Z)
         (A B : list PatchClassification),
    subscript pclpatchlist (subsamplenumber - 1) = Some A ->
    subscript aclpatchlist (subsamplenumber - 1) = Some B ->
    Z.of_nat (Nat.min (List.length A) (List.length B)) < 2 ^ 31 ->
    exists m,
      conmatrix_of pclpatchlist aclpatchlist subsamplenumber = Returned m
      /\ (forall i j,
             cell m i j =
             Z.of_nat (agreeing_positions i j A B
                         (Nat.min (List.length A) (List.length B))))
      /\ exists m',
           conmatrix_of
             [firstn (Nat.min (List.length A) (List.length B)) A]
             [firstn (Nat.min (List.length A) (List.length B)) B] 1 = Returned m'
           /\ forall i j, cell m' i j = cell m i j.
Proof.
  intros pcl acl s A B HA HB Hn.
  destruct (conmatrix_of_counts pcl acl s A B HA HB _ eq_refl Hn)
    as (m & Hm & _ & _ & Hcell).
  exists m. split; [exact Hm|]. split; [exact Hcell|].
  set (n := Nat.min (List.length A) (List.length B)) in *.
  assert (Hmin : Nat.min (List.length (firstn n A)) (List.length (firstn n B)) = n)
    by (rewrite !length_firstn; subst n; lia).
  destruct (conmatrix_of_counts [firstn n A] [firstn n B] 1 (firstn n A) (firstn n B)
              eq_refl eq_refl n (eq_sym Hmin) Hn) as (m' & Hm' & _ & _ & Hcell').
  exists m'. split; [exact Hm'|]. intros i j.
  rewrite Hcell', Hcell, agreeing_positions_firstn. reflexivity.
Qed.

Lemma C2_cells_count_aligned_pairs_witness :
  exists m,
    conmatrix_of
      [[mk_PatchClassification 1 0 "RBC"; mk_PatchClassification 1 1 "WBC";
        mk_PatchClassification 1 2 "RBC"; mk_PatchClassification 1 3 "BACT";
        mk_PatchClassification 1 4 "RBC"]]
      [[mk_PatchClassification 1 0 "RBC"; mk_PatchClassification 1 1 "RBC";
        mk_PatchClassification 1 2 "RBC"]] 1 = Returned m
    /\ cell m 0 0 = 2 /\ cell m 3 0 = 1 /\ cell m 5 25 = 0.
Proof.
  destruct (C2_cells_count_aligned_pairs
              [[mk_PatchClassification 1 0 "RBC"; mk_PatchClassification 1 1 "WBC";
                mk_PatchClassification 1 2 "RBC"; mk_PatchClassification 1 3 "BACT";
                mk_PatchClassification 1 4 "RBC"]]
              [[mk_PatchClassification 1 0 "RBC"; mk_PatchClassification 1 1 "RBC";
                mk_PatchClassification 1 2 "RBC"]] 1 _ _ eq_refl eq_refl)
    as (m & Hm & Hcell & _).
  - simpl. lia.
  - exists m. split; [exact Hm|]. rewrite !Hcell. repeat split.
Defined.

(* ================================================================== *)
(** ** Writing the matrix *)

Lemma append_assoc (a b c : string) : (a ++ b) ++ c = a ++ (b ++ c).
Proof. induction a as [|x a IH]; simpl; [reflexivity | rewrite IH; reflexivity]. Qed.

Lemma append_empty_r (a : string) : a ++ EmptyString = a.
Proof. induction a as [|x a IH]; simpl; [reflexivity | rewrite IH; reflexivity]. Qed.

Lemma fold_left_fprintf {X : Type} (text : X -> string) (l : list X) :
  forall fp : string,
    fold_left (fun fp x => fprintf fp (text x)) l fp = fp ++ join (map text l).
Proof.
  induction l as [|x l IH]; intros fp; simpl.
  - rewrite append_empty_r. reflexivity.
  - rewrite IH. unfold fprintf. apply append_assoc.
Qed.

Lemma write_row_text (m : Matrix) (fp : string) (i : Z) :
  Dim2 m = 26 -> write_row m fp i = fp ++ row_text m i.
Proof.
  intros Hd. unfold write_row, row_text. rewrite Hd.
  rewrite fold_left_fprintf. unfold fprintf. apply append_assoc.
Qed.

Lemma write_matrix_text (m : Matrix) (fp : string) :
  Dim1 m = 26 -> Dim2 m = 26 -> write_matrix m fp = fp ++ matrix_text m.
Proof.
  intros Hd1 Hd2. unfold write_matrix, matrix_text. rewrite Hd1.
  rewrite <- (fold_left_fprintf (row_text m)).
  generalize (counter_values 26). intros l. revert fp.
  induction l as [|i l IH]; intros fp; simpl; [reflexivity|].
  rewrite write_row_text by exact Hd2. apply IH.
Qed.

Lemma accumulate_dims (pcl acl : ClassificationList) (s : Z) (fuel : nat) :
  forall (count : Z) (m m' : Matrix),
    accumulate fuel pcl acl s count m = Returned m' ->
    Dim1 m' = Dim1 m /\ Dim2 m' = Dim2 m.
Proof.
  induction fuel as [|fuel IH]; intros count m m'; cbn [accumulate]; [discriminate|].
  destruct (subscript pcl (s - 1)) as [A|]; [|discriminate].
  destruct (count <? Z.of_nat (List.length A));
    [|intros H; injection H as <-; split; reflexivity].
  destruct (subscript acl (s - 1)) as [B|]; [|discriminate].
  destruct (count <? Z.of_nat (List.length B));
    [|intros H; injection H as <-; split; reflexivity].
  destruct (subscript A count) as [p|]; [|discriminate].
  destruct (subscript B count) as [a|]; [|discriminate].
  intros H. apply IH in H. exact H.
Qed.

Lemma conmatrix_of_dims (pcl acl : ClassificationList) (s : Z) (m : Matrix) :
  conmatrix_of pcl acl s = Returned m -> Dim1 m = 26 /\ Dim2 m = 26.
Proof. unfold conmatrix_of. intros H. apply accumulate_dims in H. exact H. Qed.

(** What a call that returns has done. *)
Lemma WriteSort_returned (pclfilestream aclfilestream : istream) (s : Z)
  (confile confile' : string) :
  WriteSort pclfilestream aclfilestream s confile = Returned confile' ->
  exists pcl acl m,
    ClassificationList_of pclfilestream = Some pcl
    /\ ClassificationList_of aclfilestream = Some acl
    /\ conmatrix_of pcl acl s = Returned m
    /\ confile' = confile ++ matrix_text m.
Proof.
  unfold WriteSort.
  destruct (ClassificationList_of pclfilestream) as [pcl|]; [|discriminate].
  destruct (ClassificationList_of aclfilestream) as [acl|]; [|discriminate].
  destruct (conmatrix_of pcl acl s) as [m| | |] eqn:Hm; try discriminate.
  intros H; injection H as <-.
  exists pcl, acl, m.
  split; [reflexivity|]. split; [reflexivity|]. split; [exact Hm|].
  destruct (conmatrix_of_dims _ _ _ _ Hm) as [Hd1 Hd2].
  apply write_matrix_text; assumption.
Qed.

Lemma occurrences_append (c : ascii) (a b : string) :
  occurrences c (a ++ b) = (occurrences c a + occurrences c b)%nat.
Proof. induction a as [|x a IH]; simpl; [reflexivity | rewrite IH; lia]. Qed.

Lemma occurrences_join {X : Type} (c : ascii) (text : X -> string) (k : nat) (l : list X) :
  (forall x, occurrences c (text x) = k) ->
  occurrences c (join (map text l)) = (k * List.length l)%nat.
Proof.
  intros H. induction l as [|x l IH]; simpl; [lia|].
  rewrite occurrences_append, H, IH. lia.
Qed.

(** [%d] writes digits and a sign: neither a tab nor the end of a line. *)
Lemma digits_no_tab (d : Decimal.uint) :
  occurrences tab (NilEmpty.string_of_uint d) = O.
Proof. induction d; simpl; try rewrite IHd; reflexivity. Qed.

Lemma digits_no_newline (d : Decimal.uint) :
  occurrences newline (NilEmpty.string_of_uint d) = O.
Proof. induction d; simpl; try rewrite IHd; reflexivity. Qed.

Lemma format_d_no_tab (v : Z) : occurrences tab (format_d v) = O.
Proof.
  unfold format_d. destruct (Z.to_int v) as [d|d]; simpl;
    destruct d; try reflexivity; apply digits_no_tab.
Qed.

Lemma format_d_no_newline (v : Z) : occurrences newline (format_d v) = O.
Proof.
  unfold format_d. destruct (Z.to_int v) as [d|d]; simpl;
    destruct d; try reflexivity; apply digits_no_newline.
Qed.

Lemma row_text_shape (m : Matrix) (i : Z) :
  occurrences newline (row_text m i) = 1%nat
  /\ occurrences tab (row_text m i) = 26%nat.
Proof.
  unfold row_text. rewrite !occurrences_append. split.
  - rewrite (occurrences_join newline _ 0).
    + reflexivity.
    + intros j. rewrite occurrences_append, format_d_no_newline. reflexivity.
  - rewrite (occurrences_join tab _ 1).
    + reflexivity.
    + intros j. rewrite occurrences_append, format_d_no_tab. reflexivity.
Qed.

Lemma matrix_text_rows (m : Matrix) : occurrences newline (matrix_text m) = 26%nat.
Proof.
  unfold matrix_text. rewrite (occurrences_join newline _ 1).
  - reflexivity.
  - intros i. apply row_text_shape.
Qed.

(** C10: a call that returns has appended to the file one row per first
    (pcl) index, 26 of them, each a line of 26 integers in the order of
    the second (acl) index, every integer followed by a tab; what the file
    held before is kept in front unchanged, so after two calls in a row
    the file holds its former contents, the first matrix and the second
    matrix, in this order. *)
Theorem C10_matrix_is_appended :
  forall (pclfilestream aclfilestream : istream) (subsamplenumber : Z)
         (confile confile' : string),
    WriteSort pclfilestream aclfilestream subsamplenumber confile = Returned confile' ->
    exists pcl acl m,
      ClassificationList_of pclfilestream = Some pcl
      /\ ClassificationList_of aclfilestream = Some acl
      /\ conmatrix_of pcl acl subsamplenumber = Returned m
      /\ confile' = confile ++ matrix_text m
      /\ occurrences newline (matrix_text m) = 26%nat
      /\ (forall i, occurrences newline (row_text m i) = 1%nat
                    /\ occurrences tab (row_text m i) = 26%nat)
      /\ forall (pclfilestream2 aclfilestream2 : istream) (subsamplenumber2 : Z)
                (confile'' : string),
           WriteSort pclfilestream2 aclfilestream2 subsamplenumber2 confile'
           = Returned confile'' ->
           exists m2, confile'' = confile ++ matrix_text m ++ matrix_text m2.
Proof.
  intros pclfilestream aclfilestream s confile confile' H.
  destruct (WriteSort_returned _ _ _ _ _ H) as (pcl & acl & m & Hp & Ha & Hm & ->).
  exists pcl, acl, m.
  split; [exact Hp|]. split; [exact Ha|]. split; [exact Hm|].
  split; [reflexivity|]. split; [apply matrix_text_rows|].
  split; [intros i; apply row_text_shape|].
  intros pclfilestream2 aclfilestream2 s2 confile'' H2.
  destruct (WriteSort_returned _ _ _ _ _ H2) as (_ & _ & m2 & _ & _ & _ & ->).
  exists m2. apply append_assoc.
Qed.

Lemma C10_matrix_is_appended_witness :
  exists tail,
    WriteSort (istream_of "<CLASS>RBC,WBC,") (istream_of "<CLASS>RBC,RBC,") 1 "old"
    = Returned ("old" ++ tail)
    /\ occurrences newline tail = 26%nat.
Proof.
  destruct (C10_matrix_is_appended
              (istream_of "<CLASS>RBC,WBC,") (istream_of "<CLASS>RBC,RBC,") 1 "old" _
              eq_refl)
    as (pcl & acl & m & _ & _ & _ & Htext & Hrows & _).
  exists (matrix_text m). split; [|exact Hrows].
  rewrite <- Htext. reflexivity.
Defined.

(* ================================================================== *)
(** ** A selector out of range *)

Lemma subscript_out_of_range (cl : ClassificationList) (s : Z) :
  out_of_range cl s -> subscript cl (s - 1) = None.
Proof.
  unfold out_of_range, subscript. intros H.
  destruct (Z.ltb_spec (s - 1) 0); [reflexivity|].
  apply nth_error_None. lia.
Qed.

Lemma accumulate_not_thrown (pcl acl : ClassificationList) (s : Z) (fuel : nat) :
  forall (count : Z) (m : Matrix) (what : string),
    accumulate fuel pcl acl s count m <> Thrown what.
Proof.
  induction fuel as [|fuel IH]; intros count m what; cbn [accumulate]; [discriminate|].
  destruct (subscript pcl (s - 1)) as [A|]; [|discriminate].
  destruct (count <? Z.of_nat (List.length A)); [|discriminate].
  destruct (subscript acl (s - 1)) as [B|]; [|discriminate].
  destruct (count <? Z.of_nat (List.length B)); [|discriminate].
  destruct (subscript A count) as [p|]; [|discriminate].
  destruct (subscript B count) as [a|]; [|discriminate].
  apply IH.
Qed.

(** C7, as stated, fails: with a pcl file whose only subsample is empty
    and an acl file without subsamples, selector 1 exceeds the number of
    acl subsamples, and the call returns and writes a matrix of zeros.
    The loop test finds the pcl subsample empty and never looks at the
    acl list. *)
Lemma C7_out_of_range_writes_zeros :
  ClassificationList_of (istream_of "<CLASS>") = Some [[]]
  /\ ClassificationList_of (istream_of "") = Some []
  /\ out_of_range [] 1
  /\ WriteSort (istream_of "<CLASS>") (istream_of "") 1 ""
     = Returned (matrix_text (Matrix_new 26 26))
  /\ forall what,
       WriteSort (istream_of "<CLASS>") (istream_of "") 1 "" <> Thrown what.
Proof.
  split; [reflexivity|]. split; [reflexivity|].
  split; [right; simpl; lia|]. split; [reflexivity|].
  intros what H. vm_compute in H. discriminate H.
Qed.

(** C7, amended: the builder makes no range check and never raises an
    error.  When the selector is out of range for the pcl list, or for the
    acl list while the selected pcl subsample holds a record, it reads
    outside a vector, which has no defined behaviour; when it is out of
    range for the acl list and the selected pcl subsample is empty, it
    returns and appends a matrix of zeros. *)
Theorem C7_no_range_check :
  forall (pclfilestream aclfilestream : istream) (subsamplenumber : Z)
         (confile : string),
    exists pcl acl,
      ClassificationList_of pclfilestream = Some pcl
      /\ ClassificationList_of aclfilestream = Some acl
      /\ (out_of_range pcl subsamplenumber ->
          WriteSort pclfilestream aclfilestream subsamplenumber confile = Undefined)
      /\ (out_of_range acl subsamplenumber ->
          forall A, subscript pcl (subsamplenumber - 1) = Some A ->
                    WriteSort pclfilestream aclfilestream subsamplenumber confile =
                    match A with
                    | [] => Returned (confile ++ matrix_text (Matrix_new 26 26))
                    | _ :: _ => Undefined
                    end)
      /\ forall what,
           WriteSort pclfilestream aclfilestream subsamplenumber confile
           <> Thrown what.
Proof.
  intros pclfilestream aclfilestream s confile.
  destruct (ClassificationList_of_total pclfilestream) as [pcl Hp].
  destruct (ClassificationList_of_total aclfilestream) as [acl Ha].
  exists pcl, acl. split; [exact Hp|]. split; [exact Ha|].
  unfold WriteSort. rewrite Hp, Ha. split; [|split].
  - intros H. unfold conmatrix_of. cbn [accumulate].
    rewrite (subscript_out_of_range _ _ H). reflexivity.
  - intros H A HA. unfold conmatrix_of. cbn [accumulate].
    rewrite HA, (subscript_out_of_range _ _ H).
    destruct A as [|p A].
    + cbn [List.length Z.of_nat Z.ltb Z.compare].
      rewrite <- (write_matrix_text (Matrix_new 26 26) confile eq_refl eq_refl).
      reflexivity.
    + destruct (Z.ltb_spec 0 (Z.of_nat (List.length (p :: A)))); [reflexivity|].
      simpl in *; lia.
  - intros what. unfold conmatrix_of.
    pose proof (accumulate_not_thrown pcl acl s
                  (S match subscript pcl (s - 1) with
                     | Some pclsub => List.length pclsub
                     | None => O
                     end) 0 (Matrix_new 26 26)) as H.
    destruct (accumulate _ pcl acl s 0 (Matrix_new 26 26)) as [m|w| |];
      try discriminate.
    exfalso. exact (H w eq_refl).
Qed.

Lemma C7_no_range_check_witness :
  (out_of_range [] 0
   /\ WriteSort (istream_of "") (istream_of "") 0 "" = Undefined)
  /\ (out_of_range [] 1
      /\ WriteSort (istream_of "<CLASS>") (istream_of "") 1 "kept"
         = Returned ("kept" ++ matrix_text (Matrix_new 26 26))).
Proof.
  assert (H0 : out_of_range [] 0) by (left; lia).
  assert (H1 : out_of_range [] 1) by (right; simpl; lia).
  split; (split; [assumption|]).
  - destruct (C7_no_range_check (istream_of "") (istream_of "") 0 "")
      as (pcl & acl & Hp & Ha & Hpcl & _).
    vm_compute in Hp. injection Hp as <-. exact (Hpcl H0).
  - destruct (C7_no_range_check (istream_of "<CLASS>") (istream_of "") 1 "kept")
      as (pcl & acl & Hp & Ha & _ & Hacl & _).
    vm_compute in Hp, Ha. injection Hp as <-. injection Ha as <-.
    exact (Hacl H1 [] eq_refl).
Defined.

(* ================================================================== *)
(** ** Further properties of the parser *)

Lemma list_ascii_of_string_append (a b : string) :
  list_ascii_of_string (a ++ b) = (list_ascii_of_string a ++ list_ascii_of_string b)%list.
Proof. induction a as [|c a IH]; simpl; [reflexivity | rewrite IH; reflexivity]. Qed.

Lemma emitted_name_chars (ssn idx : Z) (cn : string) :
  Forall (fun c => name_char c = true) (list_ascii_of_string cn) ->
  classification (emitted ssn idx cn) <> EmptyString
  /\ Forall (fun c => name_char c = true)
       (list_ascii_of_string (classification (emitted ssn idx cn))).
Proof.
  intros H. destruct cn as [|c cn]; simpl.
  - split; [discriminate|]. repeat constructor.
  - split; [discriminate|]. exact H.
Qed.

Lemma records_from_name_chars (ssn : Z) (l : list ascii) :
  forall (cn : string) (idx : Z) (r : PatchClassification),
    Forall (fun c => name_char c = true) (list_ascii_of_string cn) ->
    In r (records_from ssn l cn idx) ->
    classification r <> EmptyString
    /\ Forall (fun c => name_char c = true) (list_ascii_of_string (classification r)).
Proof.
  induction l as [|c l IH]; intros cn idx r Hcn; simpl; [tauto|].
  destruct (isspace c) eqn:Hs; [apply IH; exact Hcn|].
  destruct (is_delimiter c) eqn:Hd.
  - intros [<-|Hin]; [apply emitted_name_chars; exact Hcn|].
    destruct (Ascii.eqb c langle); [destruct Hin|].
    apply (IH EmptyString (uint32_wrap (idx + 1)) r); [constructor | exact Hin].
  - apply IH. unfold push_back. rewrite list_ascii_of_string_append.
    apply Forall_app. split; [exact Hcn|].
    repeat constructor. unfold name_char. rewrite Hs, Hd. reflexivity.
Qed.

(** Every label of every parsed list is a class name: it is not empty and
    holds neither white space nor a comma nor a [<]. *)
Theorem X1_labels_are_class_names :
  forall stream : istream,
    exists cl,
      ClassificationList_of stream = Some cl
      /\ forall (sub : list PatchClassification) (r : PatchClassification),
           In sub cl -> In r sub ->
           classification r <> EmptyString
           /\ forall c, In c (list_ascii_of_string (classification r)) ->
                        isspace c = false /\ is_delimiter c = false.
Proof.
  intros stream. destruct (ClassificationList_of_total stream) as [cl Hcl].
  exists cl. split; [exact Hcl|]. intros sub r Hsub Hr.
  destruct (parsed_subsamples_are_bodies _ _ _ _ _ Hcl sub Hsub) as (ssn & st & ->).
  unfold body_records in Hr. destruct (good st); [|destruct Hr].
  destruct (records_from_name_chars ssn (buf st) EmptyString 0 r (Forall_nil _) Hr)
    as [Hne Hall].
  split; [exact Hne|]. intros c Hc.
  rewrite Forall_forall in Hall. specialize (Hall c Hc).
  unfold name_char in Hall. apply andb_prop in Hall as [Hs Hd].
  split; [destruct (isspace c) | destruct (is_delimiter c)];
    try reflexivity; discriminate.
Qed.

Lemma X1_labels_are_class_names_witness :
  exists cl,
    ClassificationList_of (istream_of "<CLASS> R BC ,,W BC<") = Some cl
    /\ forall sub r, In sub cl -> In r sub -> classification r <> EmptyString.
Proof.
  destruct (X1_labels_are_class_names (istream_of "<CLASS> R BC ,,W BC<"))
    as (cl & Hcl & H).
  exists cl. split; [exact Hcl|]. intros sub r Hsub Hr.
  exact (proj1 (H sub r Hsub Hr)).
Defined.

Lemma skipws_delimiters (l : list ascii) :
  (List.length (filter is_delimiter (skipws l))
   <= List.length (filter is_delimiter l))%nat.
Proof.
  induction l as [|c l IH]; simpl; [lia|].
  destruct (isspace c); [|simpl; lia].
  destruct (is_delimiter c); simpl; lia.
Qed.

Lemma read_char_delimiters (l : list ascii) :
  (List.length (filter is_delimiter (buf (fst (read_char (opened l)))))
   <= List.length (filter is_delimiter l))%nat.
Proof.
  rewrite read_char_opened. pose proof (skipws_delimiters l) as H.
  destruct (skipws l) as [|c rest]; simpl in *; [lia|].
  destruct (is_delimiter c); simpl in H; lia.
Qed.

Lemma stream_after_delimiters (l : list ascii) :
  (delimiters_consumed l + List.length (filter is_delimiter (buf (stream_after l)))
   <= List.length (filter is_delimiter l))%nat.
Proof.
  induction l as [|c l IH]; simpl; [lia|].
  destruct (isspace c) eqn:Hs.
  - rewrite (isspace_not_langle _ Hs), (isspace_not_comma _ Hs).
    destruct (is_delimiter c); simpl; lia.
  - assert (Hd : is_delimiter c = (Ascii.eqb c comma || Ascii.eqb c langle)%bool)
      by reflexivity.
    destruct (Ascii.eqb c langle) eqn:El.
    + rewrite orb_true_r in Hd. rewrite Hd.
      pose proof (read_char_delimiters l). cbn [List.length]. lia.
    + rewrite orb_false_r in Hd. rewrite Hd.
      destruct (Ascii.eqb c comma); cbn [List.length]; lia.
Qed.

Lemma split_at_delimiters (d : ascii) (l pre post : list ascii) :
  split_at d l = Some (pre, post) ->
  (List.length (filter is_delimiter post) <= List.length (filter is_delimiter l))%nat.
Proof.
  revert pre post; induction l as [|c l IH]; simpl; intros pre post; [discriminate|].
  destruct (Ascii.eqb c d).
  - intros H; injection H as _ <-. destruct (is_delimiter c); simpl; lia.
  - destruct (split_at d l) as [[p q]|]; [|discriminate].
    intros H; injection H as _ <-. specialize (IH p q eq_refl).
    destruct (is_delimiter c); simpl; lia.
Qed.

Lemma getline_delimiters (s : istream) (input : string) (d : ascii) :
  (List.length (filter is_delimiter (buf (fst (fst (getline s input d)))))
   <= List.length (filter is_delimiter (buf s)))%nat.
Proof.
  unfold getline. destruct (negb (good s)); simpl; [lia|].
  destruct (split_at d (buf s)) as [[p q]|] eqn:E; simpl.
  - exact (split_at_delimiters _ _ _ _ E).
  - destruct (buf s); simpl; lia.
Qed.

Lemma body_delimiters (ssn : Z) (s : istream) :
  (List.length (body_records ssn s)
   + List.length (filter is_delimiter (buf (body_rest s)))
   <= List.length (filter is_delimiter (buf s)))%nat.
Proof.
  unfold body_records, body_rest. destruct (good s); simpl; [|lia].
  rewrite records_from_length. apply stream_after_delimiters.
Qed.

Lemma parse_classes_delimiters (fuel : nat) :
  forall (stream : istream) (input : string) (ssn : Z) (cl : ClassificationList),
    parse_classes fuel stream input ssn = Some cl ->
    (List.length (List.concat cl)
     <= List.length (filter is_delimiter (buf stream)))%nat.
Proof.
  induction fuel as [|fuel IH]; intros stream input ssn cl; [discriminate|].
  rewrite parse_classes_turn.
  pose proof (getline_delimiters stream input rangle) as Hg.
  destruct (getline stream input rangle) as [[stream1 input1] ok]; simpl in Hg.
  destruct ok; [|intros H; injection H as <-; simpl; lia].
  destruct (String.eqb (trim_left input1) "<CLASS").
  - destruct (parse_classes fuel _ _ _) as [rest|] eqn:E; [|discriminate].
    intros H; injection H as <-. apply IH in E.
    pose proof (body_delimiters (uint32_wrap (ssn + 1)) stream1).
    simpl. rewrite length_app. lia.
  - pose proof (getline_delimiters stream1 (trim_left input1) newline) as Hn.
    destruct (getline stream1 (trim_left input1) newline) as [[stream2 input2] ok2].
    simpl in Hn. intros H. apply IH in H. lia.
Qed.

(** A parsed list holds at most as many records, over all its subsamples,
    as the stream holds commas and [<]: no record without a delimiter of
    its own. *)
Theorem X2_no_more_records_than_delimiters :
  forall stream : istream,
    exists cl,
      ClassificationList_of stream = Some cl
      /\ (List.length (List.concat cl)
          <= List.length (filter is_delimiter (buf stream)))%nat.
Proof.
  intros stream. destruct (ClassificationList_of_total stream) as [cl Hcl].
  exists cl. split; [exact Hcl|].
  exact (parse_classes_delimiters _ _ _ _ _ Hcl).
Qed.

(** The former value of [input] does not reach the result. *)
Lemma parse_classes_input (fuel : nat) (stream : istream) (input input' : string)
  (ssn : Z) :
  parse_classes fuel stream input ssn = parse_classes fuel stream input' ssn.
Proof.
  destruct fuel as [|fuel]; [reflexivity|].
  rewrite !parse_classes_turn. unfold getline.
  destruct (negb (good stream)); [reflexivity|].
  destruct (split_at rangle (buf stream)) as [[p q]|]; reflexivity.
Qed.

(** A line that does not open with [<CLASS>] is passed over whole: when
    the characters up to the first [>] are not, leading white space apart,
    [<CLASS], the parser goes on behind the end of the line that [>] is
    on, and what it yields is what it yields for the rest of the stream. *)
Theorem X3_other_lines_are_skipped :
  forall (before tail rest : list ascii),
    ~ In rangle before ->
    trim_left (string_of_list_ascii before) <> "<CLASS" ->
    ~ In newline tail ->
    ClassificationList_of (opened (before ++ rangle :: tail ++ newline :: rest)) =
    ClassificationList_of (opened rest).
Proof.
  intros before tail rest Hb Htag Ht.
  assert (Hneq : forall d l, ~ In d l -> forall c, In c l -> Ascii.eqb c d = false).
  { intros d l Hd c Hc. destruct (Ascii.eqb_spec c d) as [->|]; [|reflexivity].
    contradiction. }
  unfold ClassificationList_of. cbn [Nat.add opened buf].
  rewrite parse_classes_turn.
  unfold getline at 1. cbn [good opened eofbit failbit negb andb buf].
  rewrite (split_at_found rangle before _ (Hneq _ _ Hb)).
  destruct (String.eqb_spec (trim_left (string_of_list_ascii before)) "<CLASS")
    as [E|_]; [contradiction|].
  unfold getline. cbn [good opened eofbit failbit negb andb buf].
  rewrite (split_at_found newline tail _ (Hneq _ _ Ht)). cbn iota beta.
  rewrite (parse_classes_input _ _ _ EmptyString).
  apply parse_classes_fuel; simpl.
  - rewrite length_app. simpl. rewrite length_app. simpl. lia.
  - lia.
Qed.

Lemma X3_other_lines_are_skipped_witness :
  ClassificationList_of
    (opened (list_ascii_of_string "<RUN" ++ rangle
               :: list_ascii_of_string " 17 <b>" ++ newline
               :: list_ascii_of_string "<CLASS>RBC,<"))
  = ClassificationList_of (opened (list_ascii_of_string "<CLASS>RBC,<")).
Proof.
  apply X3_other_lines_are_skipped.
  - simpl. intros H. repeat (destruct H as [H|H]; [discriminate H|]). exact H.
  - simpl. discriminate.
  - simpl. intros H. repeat (destruct H as [H|H]; [discriminate H|]). exact H.
Defined.

Lemma skipws_white_space (ws l : list ascii) :
  forallb isspace ws = true -> skipws (ws ++ l) = skipws l.
Proof.
  induction ws as [|c ws IH]; simpl; [reflexivity|].
  intros H. apply andb_prop in H as [Hc Hws]. rewrite Hc. exact (IH Hws).
Qed.

(** The turn of the loop that meets an opening tag and the body behind
    it, closed by [<]. *)
Lemma parse_tag_and_body (ws body after : list ascii) (fuel : nat)
  (input : string) (ssn : Z) :
  forallb isspace ws = true ->
  ~ In langle body ->
  parse_classes (S fuel)
    (opened (ws ++ list_ascii_of_string "<CLASS>" ++ body ++ langle :: after))
    input ssn =
  option_map
    (cons (body_records (uint32_wrap (ssn + 1)) (opened (body ++ [langle]))))
    (parse_classes fuel (fst (read_char (opened after))) "<CLASS"
       (uint32_wrap (ssn + 1))).
Proof.
  intros Hws Hbody. rewrite parse_classes_turn.
  assert (Hsplit :
            split_at rangle
              (ws ++ list_ascii_of_string "<CLASS>" ++ body ++ langle :: after) =
            Some ((ws ++ list_ascii_of_string "<CLASS")%list,
                  (body ++ langle :: after)%list)).
  { replace (ws ++ list_ascii_of_string "<CLASS>" ++ body ++ langle :: after)%list
      with ((ws ++ list_ascii_of_string "<CLASS") ++ rangle
              :: (body ++ langle :: after))%list
      by (rewrite <- app_assoc; reflexivity).
    apply split_at_found. intros c Hc. apply in_app_or in Hc as [Hc|Hc].
    - apply isspace_not_rangle. rewrite forallb_forall in Hws. exact (Hws c Hc).
    - simpl in Hc. repeat (destruct Hc as [<-|Hc]; [reflexivity|]). destruct Hc. }
  unfold getline. cbn [good opened eofbit failbit negb andb buf].
  rewrite Hsplit. cbn iota beta.
  rewrite (trim_left_white_space ws _ Hws).
  change (trim_left (string_of_list_ascii (list_ascii_of_string "<CLASS")))
    with "<CLASS".
  change (String.eqb "<CLASS" "<CLASS") with true. cbn iota.
  unfold body_records, body_rest. cbn [good opened eofbit failbit negb andb buf].
  rewrite (records_from_closed _ body after Hbody),
          (stream_after_closed body after Hbody).
  reflexivity.
Qed.

(** The character the iterator has read ahead when a body ends is lost to
    the parser: after the [<] that closes a body, white space and the
    first character behind it can be replaced by any other character that
    is not white space, and the parsed list stays the same. *)
Theorem X4_character_after_a_body_is_lost :
  forall (ws body gap rest : list ascii) (c c' : ascii),
    forallb isspace ws = true ->
    ~ In langle body ->
    forallb isspace gap = true ->
    isspace c = false ->
    isspace c' = false ->
    ClassificationList_of
      (opened (ws ++ list_ascii_of_string "<CLASS>" ++ body
                 ++ langle :: gap ++ c :: rest)) =
    ClassificationList_of
      (opened (ws ++ list_ascii_of_string "<CLASS>" ++ body
                 ++ langle :: c' :: rest)).
Proof.
  intros ws body gap rest c c' Hws Hbody Hgap Hc Hc'.
  unfold ClassificationList_of. cbn [Nat.add].
  rewrite !(parse_tag_and_body ws body _ _ _ _ Hws Hbody).
  rewrite !read_char_opened, (skipws_white_space gap _ Hgap).
  cbn [skipws]. rewrite Hc, Hc'. cbn [fst]. f_equal.
  apply parse_classes_fuel; cbn [opened buf];
    repeat (rewrite length_app; cbn [List.length]); lia.
Qed.

Lemma X4_character_after_a_body_is_lost_witness :
  ClassificationList_of
    (opened (list_ascii_of_string " " ++ list_ascii_of_string "<CLASS>"
               ++ list_ascii_of_string "RBC," ++ langle
               :: list_ascii_of_string "  " ++ "<"%char
               :: list_ascii_of_string "CLASS>WBC,<")) =
  ClassificationList_of
    (opened (list_ascii_of_string " " ++ list_ascii_of_string "<CLASS>"
               ++ list_ascii_of_string "RBC," ++ langle
               :: "/"%char :: list_ascii_of_string "CLASS>WBC,<")).
Proof.
  apply X4_character_after_a_body_is_lost; try reflexivity.
  simpl. intros H. repeat (destruct H as [H|H]; [discriminate H|]). exact H.
Defined.

Lemma records_from_without_white_space (ssn : Z) (l : list ascii) :
  forall (cn : string) (idx : Z),
    records_from ssn (filter (fun c => negb (isspace c)) l) cn idx =
    records_from ssn l cn idx.
Proof.
  induction l as [|c l IH]; intros cn idx; simpl; [reflexivity|].
  destruct (isspace c) eqn:Hs; simpl; [apply IH|].
  rewrite Hs, !IH. reflexivity.
Qed.

(** White space is of no account in a body: the records read from a
    stream are those read from the stream with every white space
    character taken out. *)
Theorem X5_white_space_in_a_body_is_of_no_account :
  forall (l : list ascii) (ssn : Z),
    exists recs rest rest',
      SubsampleClassifications (opened l) ssn = Some (recs, rest)
      /\ SubsampleClassifications
           (opened (filter (fun c => negb (isspace c)) l)) ssn = Some (recs, rest').
Proof.
  intros l ssn.
  exists (body_records ssn (opened l)), (body_rest (opened l)),
         (body_rest (opened (filter (fun c => negb (isspace c)) l))).
  rewrite !SubsampleClassifications_eq. split; [reflexivity|].
  unfold body_records; cbn [good opened eofbit failbit negb andb buf].
  rewrite records_from_without_white_space. reflexivity.
Qed.

(** In a parsed subsample of at most 2^32 records, [operator==] finds a
    record by its place: the record at position [p] equals the index [B]
    exactly when [B] is [p]. *)
Theorem X6_a_record_equals_its_position :
  forall stream : istream,
    exists cl,
      ClassificationList_of stream = Some cl
      /\ forall (sub : list PatchClassification) (p : nat)
                (r : PatchClassification) (B : Z),
           In sub cl ->
           Z.of_nat (List.length sub) <= 2 ^ 32 ->
           nth_error sub p = Some r ->
           (PatchClassification_eq r B = true <-> B = Z.of_nat p).
Proof.
  intros stream. destruct (ClassificationList_of_total stream) as [cl Hcl].
  exists cl. split; [exact Hcl|]. intros sub p r B Hsub Hn Hp.
  destruct (parsed_subsamples_are_bodies _ _ _ _ _ Hcl sub Hsub) as (ssn & st & ->).
  assert (Hidx : patchIndex r = Z.of_nat p).
  { pose proof (map_nth_error patchIndex p _ Hp) as H.
    rewrite body_records_patchIndex in H.
    assert (Hlt : (p < List.length (body_records ssn st))%nat)
      by (apply nth_error_Some; rewrite Hp; discriminate).
    rewrite (map_nth_error _ p (seq 0 (List.length (body_records ssn st)))
               (d := p)) in H.
    - injection H as H. rewrite <- H. apply uint32_wrap_small. lia.
    - rewrite nth_error_nth' with (d := O) by (rewrite length_seq; exact Hlt).
      rewrite seq_nth by exact Hlt. reflexivity. }
  unfold PatchClassification_eq. rewrite Hidx. rewrite Z.eqb_eq.
  split; intros H; symmetry; exact H.
Qed.

Lemma X6_a_record_equals_its_position_witness :
  exists cl,
    ClassificationList_of (istream_of "<CLASS>A,,B<") = Some cl
    /\ forall sub r, In sub cl -> nth_error sub 2 = Some r ->
                     PatchClassification_eq r 2 = true.
Proof.
  destruct (X6_a_record_equals_its_position (istream_of "<CLASS>A,,B<"))
    as (cl & Hcl & H).
  exists cl. split; [exact Hcl|]. intros sub r Hsub Hr.
  apply (H sub 2%nat r 2 Hsub); [|exact Hr|reflexivity].
  vm_compute in Hcl. injection Hcl as <-. destruct Hsub as [<-|[]].
  simpl. lia.
Defined.

(* ================================================================== *)
(** ** Further properties of the matrix *)

Lemma sum_over_add {X : Type} (f g : X -> Z) (l : list X) :
  sum_over (fun x => f x + g x) l = sum_over f l + sum_over g l.
Proof. induction l as [|x l IH]; simpl; [reflexivity | rewrite IH; lia]. Qed.

Lemma sum_over_ext {X : Type} (f g : X -> Z) (l : list X) :
  (forall x, f x = g x) -> sum_over f l = sum_over g l.
Proof.
  intros H. induction l as [|x l IH]; simpl; [reflexivity | rewrite IH, H; reflexivity].
Qed.

Lemma sum_over_zero {X : Type} (l : list X) : sum_over (fun _ => 0) l = 0.
Proof. induction l as [|x l IH]; simpl; [reflexivity | exact IH]. Qed.

(** When every position counts for exactly one index of [G], the counts
    over [G] add up to the number of positions. *)
Lemma sum_of_counts {X : Type} (G : list X) (f : X -> nat -> bool) (L : list nat) :
  (forall k, In k L -> sum_over (fun x => if f x k then 1 else 0) G = 1) ->
  sum_over (fun x => Z.of_nat (List.length (filter (f x) L))) G
  = Z.of_nat (List.length L).
Proof.
  induction L as [|k L IH]; intros H.
  - simpl. apply sum_over_zero.
  - rewrite (sum_over_ext _
               (fun x => (if f x k then 1 else 0)
                         + Z.of_nat (List.length (filter (f x) L)))).
    + rewrite sum_over_add, (H k (or_introl eq_refl)), IH.
      * cbn [List.length]. lia.
      * intros k' Hk'. apply H. right. exact Hk'.
    + intros x. cbn [filter]. destruct (f x k); cbn [List.length]; lia.
Qed.

Lemma in_counter_values (d z : Z) : 0 <= z < d -> In z (counter_values d).
Proof.
  intros H. unfold counter_values. apply in_map_iff.
  exists (Z.to_nat z). split; [lia|]. apply in_seq. lia.
Qed.

Lemma one_cell_per_pair (p a : Z) :
  0 <= p <= 25 -> 0 <= a <= 25 ->
  sum_over (fun ij => if (p =? fst ij) && (a =? snd ij) then 1 else 0) all_cells = 1.
Proof.
  intros Hp Ha.
  assert (H : forallb
                (fun p => forallb
                            (fun a =>
                               sum_over
                                 (fun ij => if (p =? fst ij) && (a =? snd ij)
                                            then 1 else 0) all_cells =? 1)
                            (counter_values 26))
                (counter_values 26) = true) by (vm_compute; reflexivity).
  rewrite forallb_forall in H.
  specialize (H p (in_counter_values 26 p ltac:(lia))).
  rewrite forallb_forall in H.
  specialize (H a (in_counter_values 26 a ltac:(lia))).
  apply Z.eqb_eq. exact H.
Qed.

Lemma one_diagonal_cell (p : Z) :
  0 <= p <= 25 ->
  sum_over (fun i => if (p =? i) && (p =? i) then 1 else 0) (counter_values 26) = 1.
Proof.
  intros Hp.
  assert (H : forallb
                (fun p => sum_over (fun i => if (p =? i) && (p =? i) then 1 else 0)
                            (counter_values 26) =? 1)
                (counter_values 26) = true) by (vm_compute; reflexivity).
  rewrite forallb_forall in H.
  specialize (H p (in_counter_values 26 p ltac:(lia))).
  apply Z.eqb_eq. exact H.
Qed.

Lemma agree_at (i j : Z) (A B : list PatchClassification) (k : nat)
  (p a : PatchClassification) :
  nth_error A k = Some p -> nth_error B k = Some a ->
  agree i j A B k =
  (pclindex_of (classification p) =? i) && (pclindex_of (classification a) =? j).
Proof. intros Hp Ha. unfold agree. rewrite Hp, Ha. reflexivity. Qed.

Lemma agreeing_positions_bound (i j : Z) (A B : list PatchClassification) (n : nat) :
  (agreeing_positions i j A B n <= n)%nat.
Proof.
  unfold agreeing_positions.
  pose proof (filter_length_le (agree i j A B) (seq 0 n)) as H.
  rewrite length_seq in H. exact H.
Qed.

Lemma filter_none {X : Type} (f : X -> bool) (l : list X) :
  (forall x, f x = false) -> filter f l = [].
Proof.
  intros H. induction l as [|x l IH]; simpl; [reflexivity|]. rewrite H. exact IH.
Qed.

Lemma agreeing_positions_outside (i j : Z) (A B : list PatchClassification) (n : nat) :
  ~ (0 <= i <= 25 /\ 0 <= j <= 25) -> agreeing_positions i j A B n = O.
Proof.
  intros H. unfold agreeing_positions.
  rewrite filter_none; [reflexivity|]. intros k. unfold agree.
  destruct (nth_error A k) as [p|]; [|reflexivity].
  destruct (nth_error B k) as [a|]; [|reflexivity].
  pose proof (pclindex_of_range (classification p)).
  pose proof (pclindex_of_range (classification a)).
  change (aclindex_of (classification a)) with (pclindex_of (classification a)).
  destruct (Z.eqb_spec (pclindex_of (classification p)) i);
    destruct (Z.eqb_spec (pclindex_of (classification a)) j);
    try reflexivity.
  exfalso. apply H. lia.
Qed.

(** For a selector within range for both lists, the cells of the matrix
    are counts between 0 and the length [n] of the shorter subsample,
    there is nothing outside the 26 rows and 26 columns, and the cells
    add up to [n]: every aligned pair is counted exactly once.  ([n] is
    taken below 2^31.) *)
Theorem X7_cells_add_up_to_the_pairs :
  forall (pclpatchlist aclpatchlist : ClassificationList) (subsamplenumber : Z)
         (A B : list PatchClassification),
    subscript pclpatchlist (subsamplenumber - 1) = Some A ->
    subscript aclpatchlist (subsamplenumber - 1) = Some B ->
    Z.of_nat (Nat.min (List.length A) (List.length B)) < 2 ^ 31 ->
    exists m,
      conmatrix_of pclpatchlist aclpatchlist subsamplenumber = Returned m
      /\ sum_cells m = Z.of_nat (Nat.min (List.length A) (List.length B))
      /\ (forall i j,
             0 <= cell m i j <= Z.of_nat (Nat.min (List.length A) (List.length B)))
      /\ (forall i j, ~ (0 <= i <= 25 /\ 0 <= j <= 25) -> cell m i j = 0).
Proof.
  intros pcl acl s A B HA HB Hn.
  destruct (conmatrix_of_counts pcl acl s A B HA HB _ eq_refl Hn)
    as (m & Hm & _ & _ & Hcell).
  set (n := Nat.min (List.length A) (List.length B)) in *.
  exists m. split; [exact Hm|]. split; [|split].
  - unfold sum_cells.
    rewrite (sum_over_ext _
               (fun ij => Z.of_nat
                            (List.length
                               (filter (fun k => agree (fst ij) (snd ij) A B k)
                                  (seq 0 n)))))
      by (intros ij; apply Hcell).
    rewrite (sum_of_counts all_cells (fun ij k => agree (fst ij) (snd ij) A B k)).
    + rewrite length_seq. reflexivity.
    + intros k Hk. apply in_seq in Hk.
      destruct (nth_error A k) as [p|] eqn:Hp;
        [|apply nth_error_None in Hp; subst n; lia].
      destruct (nth_error B k) as [a|] eqn:Ha;
        [|apply nth_error_None in Ha; subst n; lia].
      rewrite (sum_over_ext _
                 (fun ij => if (pclindex_of (classification p) =? fst ij)
                               && (pclindex_of (classification a) =? snd ij)
                            then 1 else 0))
        by (intros ij; rewrite (agree_at _ _ A B k p a Hp Ha); reflexivity).
      apply one_cell_per_pair; apply pclindex_of_range.
  - intros i j. rewrite Hcell.
    pose proof (agreeing_positions_bound i j A B n). lia.
  - intros i j Hout. rewrite Hcell, (agreeing_positions_outside i j A B n Hout).
    reflexivity.
Qed.

Lemma X7_cells_add_up_to_the_pairs_witness :
  exists m,
    conmatrix_of
      [[mk_PatchClassification 1 0 "RBC"; mk_PatchClassification 1 1 "WBC";
        mk_PatchClassification 1 2 "what"]]
      [[mk_PatchClassification 1 0 "RBC"; mk_PatchClassification 1 1 "NONE"]] 1
    = Returned m
    /\ sum_cells m = 2.
Proof.
  destruct (X7_cells_add_up_to_the_pairs
              [[mk_PatchClassification 1 0 "RBC"; mk_PatchClassification 1 1 "WBC";
                mk_PatchClassification 1 2 "what"]]
              [[mk_PatchClassification 1 0 "RBC"; mk_PatchClassification 1 1 "NONE"]]
              1 _ _ eq_refl eq_refl)
    as (m & Hm & Hsum & _).
  - simpl. lia.
  - exists m. split; [exact Hm | exact Hsum].
Defined.

(** A list compared with itself gives a diagonal matrix: every cell off
    the diagonal is 0, and the diagonal adds up to the length of the
    selected subsample (taken below 2^31). *)
Theorem X8_a_list_against_itself_is_diagonal :
  forall (patchlist : ClassificationList) (subsamplenumber : Z)
         (A : list PatchClassification),
    subscript patchlist (subsamplenumber - 1) = Some A ->
    Z.of_nat (List.length A) < 2 ^ 31 ->
    exists m,
      conmatrix_of patchlist patchlist subsamplenumber = Returned m
      /\ (forall i j, i <> j -> cell m i j = 0)
      /\ trace m = Z.of_nat (List.length A).
Proof.
  intros cl s A HA Hn.
  assert (Hmin : Nat.min (List.length A) (List.length A) = List.length A) by lia.
  destruct (conmatrix_of_counts cl cl s A A HA HA (List.length A) (eq_sym Hmin) Hn)
    as (m & Hm & _ & _ & Hcell).
  exists m. split; [exact Hm|]. split.
  - intros i j Hij. rewrite Hcell. unfold agreeing_positions.
    rewrite filter_none; [reflexivity|]. intros k. unfold agree.
    destruct (nth_error A k) as [p|]; [|reflexivity].
    change (aclindex_of (classification p)) with (pclindex_of (classification p)).
    destruct (Z.eqb_spec (pclindex_of (classification p)) i);
      destruct (Z.eqb_spec (pclindex_of (classification p)) j);
      try reflexivity.
    exfalso. apply Hij. congruence.
  - unfold trace.
    rewrite (sum_over_ext _
               (fun i => Z.of_nat
                           (List.length
                              (filter (fun k => agree i i A A k)
                                 (seq 0 (List.length A))))))
      by (intros i; apply Hcell).
    rewrite (sum_of_counts (counter_values 26) (fun i k => agree i i A A k)).
    + rewrite length_seq. reflexivity.
    + intros k Hk. apply in_seq in Hk.
      destruct (nth_error A k) as [p|] eqn:Hp;
        [|apply nth_error_None in Hp; lia].
      rewrite (sum_over_ext _
                 (fun i => if (pclindex_of (classification p) =? i)
                              && (pclindex_of (classification p) =? i)
                           then 1 else 0))
        by (intros i; rewrite (agree_at _ _ A A k p p Hp Hp); reflexivity).
      apply one_diagonal_cell. apply pclindex_of_range.
Qed.

Lemma X8_a_list_against_itself_is_diagonal_witness :
  exists m,
    conmatrix_of
      [[mk_PatchClassification 1 0 "RBC"; mk_PatchClassification 1 1 "WBC";
        mk_PatchClassification 1 2 "what"]]
      [[mk_PatchClassification 1 0 "RBC"; mk_PatchClassification 1 1 "WBC";
        mk_PatchClassification 1 2 "what"]] 1
    = Returned m
    /\ cell m 0 3 = 0 /\ trace m = 3.
Proof.
  destruct (X8_a_list_against_itself_is_diagonal
              [[mk_PatchClassification 1 0 "RBC"; mk_PatchClassification 1 1 "WBC";
                mk_PatchClassification 1 2 "what"]] 1 _ eq_refl)
    as (m & Hm & Hoff & Htrace).
  - simpl. lia.
  - exists m. split; [exact Hm|]. split; [apply Hoff; lia | exact Htrace].
Defined.

Lemma agreeing_positions_swap (i j : Z) (A B : list PatchClassification) (n : nat) :
  agreeing_positions i j B A n = agreeing_positions j i A B n.
Proof.
  unfold agreeing_positions. f_equal. apply filter_ext. intros k. unfold agree.
  destruct (nth_error A k) as [p|], (nth_error B k) as [a|]; try reflexivity.
  change aclindex_of with pclindex_of. apply andb_comm.
Qed.

(** The two files change places, the matrix is transposed: the cell
    [(i,j)] of the matrix of acl against pcl is the cell [(j,i)] of the
    matrix of pcl against acl.  (The shorter subsample is taken to be
    shorter than 2^31.) *)
Theorem X9_swapping_the_lists_transposes :
  forall (pclpatchlist aclpatchlist : ClassificationList) (subsamplenumber : Z)
         (A B : list PatchClassification),
    subscript pclpatchlist (subsamplenumber - 1) = Some A ->
    subscript aclpatchlist (subsamplenumber - 1) = Some B ->
    Z.of_nat (Nat.min (List.length A) (List.length B)) < 2 ^ 31 ->
    exists m m',
      conmatrix_of pclpatchlist aclpatchlist subsamplenumber = Returned m
      /\ conmatrix_of aclpatchlist pclpatchlist subsamplenumber = Returned m'
      /\ forall i j, cell m' i j = cell m j i.
Proof.
  intros pcl acl s A B HA HB Hn.
  destruct (conmatrix_of_counts pcl acl s A B HA HB _ eq_refl Hn)
    as (m & Hm & _ & _ & Hcell).
  destruct (conmatrix_of_counts acl pcl s B A HB HA
              (Nat.min (List.length A) (List.length B)) (Nat.min_comm _ _) Hn)
    as (m' & Hm' & _ & _ & Hcell').
  exists m, m'. split; [exact Hm|]. split; [exact Hm'|].
  intros i j. rewrite Hcell', Hcell, agreeing_positions_swap. reflexivity.
Qed.

Lemma X9_swapping_the_lists_transposes_witness :
  exists m m',
    conmatrix_of [[mk_PatchClassification 1 0 "RBC"; mk_PatchClassification 1 1 "WBC"]]
                 [[mk_PatchClassification 1 0 "BACT"]] 1 = Returned m
    /\ conmatrix_of [[mk_PatchClassification 1 0 "BACT"]]
         [[mk_PatchClassification 1 0 "RBC"; mk_PatchClassification 1 1 "WBC"]] 1
       = Returned m'
    /\ cell m' 5 0 = cell m 0 5.
Proof.
  destruct (X9_swapping_the_lists_transposes
              [[mk_PatchClassification 1 0 "RBC"; mk_PatchClassification 1 1 "WBC"]]
              [[mk_PatchClassification 1 0 "BACT"]] 1 _ _ eq_refl eq_refl)
    as (m & m' & Hm & Hm' & H).
  - simpl. lia.
  - exists m, m'. split; [exact Hm|]. split; [exact Hm' | apply H].
Defined.

(* ================================================================== *)
(** ** The written table keeps the matrix *)

Lemma format_d_inj (v w : Z) : format_d v = format_d w -> v = w.
Proof.
  unfold format_d. intros H.
  assert (Hnil : forall z, Z.to_int z <> Decimal.Pos Decimal.Nil
                           /\ Z.to_int z <> Decimal.Neg Decimal.Nil).
  { intros [|p|p]; simpl; split; try discriminate;
      intros E; injection E as E; exact (Unsigned.to_uint_nonnil p E). }
  apply to_int_inj.
  pose proof (NilZero.isi (Z.to_int v) (proj1 (Hnil v)) (proj2 (Hnil v))) as Hv.
  pose proof (NilZero.isi (Z.to_int w) (proj1 (Hnil w)) (proj2 (Hnil w))) as Hw.
  rewrite H, Hw in Hv. injection Hv as Hv. symmetry. exact Hv.
Qed.

(** Two texts without [c], each followed by [c]: they end where the first
    [c] is. *)
Lemma terminated_inj (c : ascii) (a b s t : string) :
  occurrences c a = O -> occurrences c b = O ->
  a ++ String c s = b ++ String c t -> a = b /\ s = t.
Proof.
  revert b. induction a as [|x a IH]; intros [|y b] Ha Hb H; simpl in *.
  - injection H as ->. split; reflexivity.
  - injection H as <- _. rewrite Ascii.eqb_refl in Hb. discriminate Hb.
  - injection H as -> _. rewrite Ascii.eqb_refl in Ha. discriminate Ha.
  - injection H as -> H.
    destruct (Ascii.eqb y c); [discriminate Ha|]. simpl in Ha, Hb.
    destruct (IH b Ha Hb H) as [-> ->]. split; reflexivity.
Qed.

Lemma join_terminated_inj {X : Type} (c : ascii) (g1 g2 : X -> string) (l : list X) :
  (forall x, occurrences c (g1 x) = O) ->
  (forall x, occurrences c (g2 x) = O) ->
  forall s t : string,
    join (map (fun x => g1 x ++ String c EmptyString) l) ++ s =
    join (map (fun x => g2 x ++ String c EmptyString) l) ++ t ->
    (forall x, In x l -> g1 x = g2 x) /\ s = t.
Proof.
  intros H1 H2. induction l as [|x l IH]; intros s t H; simpl in H.
  - split; [intros x []|exact H].
  - rewrite !append_assoc in H. simpl in H.
    destruct (terminated_inj c _ _ _ _ (H1 x) (H2 x) H) as [Hx Hrest].
    destruct (IH s t Hrest) as [Hl Hst].
    split; [|exact Hst]. intros y [<-|Hy]; [exact Hx | exact (Hl y Hy)].
Qed.

Lemma cells_text_no_newline (m : Matrix) (i : Z) :
  occurrences newline
    (join (map (fun j => format_d (cell m i j) ++ String tab EmptyString)
             (counter_values 26))) = O.
Proof.
  rewrite (occurrences_join newline _ 0); [reflexivity|].
  intros j. rewrite occurrences_append, format_d_no_newline. reflexivity.
Qed.

(** The reference text of a table determines the 26 by 26 cells. *)
Lemma matrix_text_inj :
  forall m1 m2 : Matrix,
    matrix_text m1 = matrix_text m2 ->
    forall i j, 0 <= i <= 25 -> 0 <= j <= 25 -> cell m1 i j = cell m2 i j.
Proof.
  intros m1 m2 H i j Hi Hj.
  set (cells := fun (m : Matrix) (i : Z) =>
                  join (map (fun j => format_d (cell m i j) ++ String tab EmptyString)
                          (counter_values 26))).
  assert (Hrows : forall i, In i (counter_values 26) -> cells m1 i = cells m2 i).
  { apply (join_terminated_inj newline (cells m1) (cells m2) (counter_values 26)
             (cells_text_no_newline m1) (cells_text_no_newline m2)
             EmptyString EmptyString).
    rewrite !append_empty_r. exact H. }
  specialize (Hrows i (in_counter_values 26 i ltac:(lia))).
  assert (Hcells : forall j, In j (counter_values 26) ->
                             format_d (cell m1 i j) = format_d (cell m2 i j)).
  { apply (join_terminated_inj tab
             (fun j => format_d (cell m1 i j)) (fun j => format_d (cell m2 i j))
             (counter_values 26)
             (fun j => format_d_no_tab _) (fun j => format_d_no_tab _)
             EmptyString EmptyString).
    rewrite !append_empty_r. exact Hrows. }
  apply format_d_inj. exact (Hcells j (in_counter_values 26 j ltac:(lia))).
Qed.


(* ================================================================== *)
(** ** The driver *)

Lemma fields_found (l pre post : list ascii) :
  split_at newline l = Some (pre, post) -> fields l = pre :: fields post.
Proof.
  revert pre post. induction l as [|c l IH]; intros pre post; simpl; [discriminate|].
  destruct (Ascii.eqb c newline).
  - intros H; injection H as <- <-. reflexivity.
  - destruct (split_at newline l) as [[p q]|]; [|discriminate].
    intros H; injection H as <- <-. rewrite (IH p q eq_refl). reflexivity.
Qed.

Lemma fields_not_found (l : list ascii) :
  split_at newline l = None -> fields l = [l].
Proof.
  induction l as [|c l IH]; simpl; [reflexivity|].
  destruct (Ascii.eqb c newline); [discriminate|].
  destruct (split_at newline l) as [[p q]|]; [discriminate|].
  intros _. rewrite (IH eq_refl). reflexivity.
Qed.

(** The loop over an open list is [WriteSort] on its fields in turn. *)
Lemma process_runfiles_fields (this : PatchExtractor) (fuel : nat) :
  forall (l : list ascii) (fs : filesystem) (cout : string),
    (List.length l + 2 <= fuel)%nat ->
    process_runfiles fuel this fs cout (opened l) =
    process_lines this fs cout (map string_of_list_ascii (fields l)).
Proof.
  induction fuel as [|fuel IH]; intros l fs cout Hf; [lia|].
  cbn [process_runfiles opened eofbit].
  unfold getline. cbn [good opened eofbit failbit negb andb buf].
  destruct (split_at newline l) as [[pre post]|] eqn:E.
  - rewrite (fields_found _ _ _ E). cbn [map process_lines].
    apply split_at_length in E.
    destruct (PatchExtractor_WriteSort this fs (c_str (string_of_list_ascii pre)));
      try reflexivity.
    apply IH. lia.
  - rewrite (fields_not_found _ E). cbn [map process_lines].
    destruct fuel as [|fuel]; [lia|].
    destruct l as [|c l]; cbn [string_of_list_ascii];
      destruct (PatchExtractor_WriteSort this fs _); reflexivity.
Qed.

Lemma Sort_fields (fs : filesystem) (cout runfilelist destination contents : string)
  (sample : Z) :
  file fs (c_str runfilelist) = Some contents ->
  Sort fs cout runfilelist destination sample =
  process_lines
    (mk_PatchExtractor destination
       (string_of_list_ascii (hd [] (fields (list_ascii_of_string contents))))
       sample)
    fs cout
    (map string_of_list_ascii (tl (fields (list_ascii_of_string contents)))).
Proof.
  intros Hfile.
  unfold Sort, PatchExtractor_Sort, ifstream. rewrite Hfile.
  unfold istream_of. set (l := list_ascii_of_string contents).
  unfold getline. cbn [good opened eofbit failbit negb andb buf].
  cbn [PatchExtractor_new outputdirectory subsamplenumber].
  destruct (split_at newline l) as [[pre post]|] eqn:E.
  - rewrite (fields_found _ _ _ E). cbn [hd tl].
    apply split_at_length in E.
    apply (process_runfiles_fields _ _ post). simpl. lia.
  - rewrite (fields_not_found _ E). cbn [hd tl map process_lines].
    destruct l as [|c l']; reflexivity.
Qed.

(** When the list of runs opens, [Sort] takes its first line for the input
    directory and runs [WriteSort] on every further field between ends of
    line, in order, the empty field behind a last end of line included. *)
Theorem X11_Sort_runs_every_field_of_the_list :
  forall (fs : filesystem) (cout runfilelist destination contents : string)
         (sample : Z),
    file fs (c_str runfilelist) = Some contents ->
    Sort fs cout runfilelist destination sample =
    process_lines
      (mk_PatchExtractor destination
         (string_of_list_ascii (hd [] (fields (list_ascii_of_string contents))))
         sample)
      fs cout
      (map string_of_list_ascii (tl (fields (list_ascii_of_string contents)))).
Proof.
  intros fs cout runfilelist destination contents sample Hfile.
  apply Sort_fields. exact Hfile.
Qed.

Lemma X11_Sort_runs_every_field_of_the_list_witness :
  file (example_files true) (c_str "list")
  = Some ("in/" ++ String newline "r1" ++ String newline "")
  /\ Sort (example_files true) "" "list" "out" 1 =
     process_lines (mk_PatchExtractor "out" "in/" 1) (example_files true) ""
       ["r1"; ""].
Proof.
  split; [reflexivity|].
  exact (X11_Sort_runs_every_field_of_the_list
           (example_files true) "" "list" "out" _ 1 eq_refl).
Defined.

Lemma WriteSort_without_pcl (aclfilestream : istream) (s : Z) (before : string) :
  WriteSort (mk_istream [] false true) aclfilestream s before = Undefined.
Proof.
  unfold WriteSort.
  change (ClassificationList_of (mk_istream [] false true)) with (Some (@nil (list PatchClassification))).
  destruct (ClassificationList_of_total aclfilestream) as [acl ->].
  assert (Hs : subscript (@nil (list PatchClassification)) (s - 1) = None).
  { unfold subscript. destruct (s - 1 <? 0); [reflexivity|].
    destruct (Z.to_nat (s - 1)); reflexivity. }
  unfold conmatrix_of. rewrite Hs. cbn [accumulate]. rewrite Hs. reflexivity.
Qed.

Lemma PatchExtractor_WriteSort_returned (this : PatchExtractor) (fs fs' : filesystem)
  (runfilename : string) :
  PatchExtractor_WriteSort this fs runfilename = Returned fs' ->
  appendable fs (confile_path this) = true
  /\ exists m,
       fs' = write_file fs (confile_path this)
               (contents_of fs (confile_path this) ++ matrix_text m).
Proof.
  unfold PatchExtractor_WriteSort.
  fold (contents_of fs (confile_path this)).
  destruct (WriteSort _ _ _ _) as [after| | |] eqn:E; try discriminate.
  destruct (appendable fs (confile_path this)); [|discriminate].
  intros H; injection H as <-. split; [reflexivity|].
  destruct (WriteSort_returned _ _ _ _ _ E) as (_ & _ & m & _ & _ & _ & ->).
  exists m. reflexivity.
Qed.

(** [WriteSort] has no way to return when the pcl file of the run does not
    open, whatever the subsample number, or when the output file does not
    open: with no pcl file the list is empty and the first test of the
    loop reads outside it. *)
Theorem X12_WriteSort_needs_its_files :
  forall (this : PatchExtractor) (fs : filesystem) (runfilename : string),
    (file fs (c_str (inputdirectory this ++ runfilename ++ ".pcl")) = None ->
     PatchExtractor_WriteSort this fs runfilename = Undefined)
    /\ (appendable fs (confile_path this) = false ->
        forall fs', PatchExtractor_WriteSort this fs runfilename <> Returned fs').
Proof.
  intros this fs runfilename. split.
  - intros H. unfold PatchExtractor_WriteSort, ifstream. rewrite H.
    rewrite WriteSort_without_pcl. reflexivity.
  - intros H fs' E. apply PatchExtractor_WriteSort_returned in E as [E _].
    rewrite H in E. discriminate E.
Qed.

Lemma X12_WriteSort_needs_its_files_witness :
  file (example_files false) (c_str ("in/" ++ "r2" ++ ".pcl")) = None
  /\ PatchExtractor_WriteSort (mk_PatchExtractor "out" "in/" 1)
       (example_files false) "r2" = Undefined.
Proof.
  split; [reflexivity|].
  exact (proj1 (X12_WriteSort_needs_its_files
                  (mk_PatchExtractor "out" "in/" 1) (example_files false) "r2")
           eq_refl).
Defined.

Lemma process_runfiles_failed (this : PatchExtractor) (fuel : nat) :
  forall (fs : filesystem) (cout : string) (r : filesystem * string),
    process_runfiles fuel this fs cout (mk_istream [] false true) <> Returned r.
Proof.
  induction fuel as [|fuel IH]; intros fs cout r; cbn [process_runfiles eofbit];
    [discriminate|].
  unfold getline. cbn [good eofbit failbit negb andb buf].
  destruct (PatchExtractor_WriteSort this fs _); try discriminate.
  apply IH.
Qed.

Lemma PatchExtractor_Sort_failed (fuel : nat) (this : PatchExtractor)
  (fs : filesystem) (cout runfilelist : string) (r : filesystem * string) :
  file fs (c_str runfilelist) = None ->
  PatchExtractor_Sort fuel this fs cout runfilelist <> Returned r.
Proof.
  intros H. unfold PatchExtractor_Sort, ifstream. rewrite H.
  unfold getline. cbn [good eofbit failbit negb andb buf].
  apply process_runfiles_failed.
Qed.

(** When the list of runs does not open, [Sort] does not return, however
    long it runs: the stream never reaches its end, and the loop goes on
    calling [WriteSort] with an empty run name. *)
Theorem X13_Sort_without_a_list_never_returns :
  forall (fuel : nat) (this : PatchExtractor) (fs : filesystem)
         (cout runfilelist : string) (r : filesystem * string),
    file fs (c_str runfilelist) = None ->
    PatchExtractor_Sort fuel this fs cout runfilelist <> Returned r.
Proof.
  intros fuel this fs cout runfilelist r H.
  apply PatchExtractor_Sort_failed. exact H.
Qed.

Lemma X13_Sort_without_a_list_never_returns_witness :
  file (example_files false) (c_str "no list") = None
  /\ forall fuel r,
       PatchExtractor_Sort fuel (PatchExtractor_new "out" 1) (example_files false)
         "" "no list" <> Returned r.
Proof.
  split; [reflexivity|]. intros fuel r.
  exact (X13_Sort_without_a_list_never_returns fuel
           (PatchExtractor_new "out" 1) (example_files false) "" "no list" r
           eq_refl).
Defined.

Lemma contents_of_written (fs : filesystem) (path contents : string) :
  contents_of (write_file fs path contents) path = contents.
Proof. unfold contents_of, write_file; simpl. rewrite String.eqb_refl. reflexivity. Qed.

Lemma file_not_written (fs : filesystem) (path contents p : string) :
  p <> path -> file (write_file fs path contents) p = file fs p.
Proof.
  intros H. unfold write_file; simpl.
  destruct (String.eqb_spec p path); [contradiction|reflexivity].
Qed.

(** What a returning sequence of runs has done. *)
Lemma process_lines_returned (this : PatchExtractor) (lines : list string) :
  forall (fs fs' : filesystem) (cout cout' : string),
    process_lines this fs cout lines = Returned (fs', cout') ->
    exists ms,
      List.length ms = List.length lines
      /\ (lines <> [] -> file fs' (confile_path this) <> None)
      /\ contents_of fs' (confile_path this)
         = contents_of fs (confile_path this) ++ join (map matrix_text ms)
      /\ (forall p, p <> confile_path this -> file fs' p = file fs p)
      /\ cout' = cout ++ join (map announcement lines).
Proof.
  induction lines as [|nextline lines IH]; intros fs fs' cout cout'; cbn [process_lines].
  - intros H; injection H as <- <-. exists []. simpl.
    rewrite !append_empty_r. repeat split; try reflexivity. intros H; contradiction.
  - destruct (PatchExtractor_WriteSort this fs (c_str nextline)) as [fs1| | |] eqn:E;
      try discriminate.
    intros H. destruct (IH _ _ _ _ H) as (ms & Hlen & Hexists & Hfile & Hframe & Hcout).
    destruct (PatchExtractor_WriteSort_returned _ _ _ _ E) as (_ & m & ->).
    exists (m :: ms). split; [simpl; rewrite Hlen; reflexivity|]. split; [|split; [|split]].
    + intros _. destruct lines as [|l lines].
      * cbn [process_lines] in H. injection H as <- _.
        unfold write_file; simpl. rewrite String.eqb_refl. discriminate.
      * apply Hexists. discriminate.
    + rewrite Hfile, contents_of_written. simpl. apply append_assoc.
    + intros p Hp. rewrite (Hframe p Hp). apply file_not_written. exact Hp.
    + rewrite Hcout. unfold processing. simpl join.
      fold (announcement nextline). apply append_assoc.
Qed.



Lemma fields_nonempty (l : list ascii) : fields l <> [].
Proof.
  destruct l as [|c l]; simpl; [discriminate|].
  destruct (Ascii.eqb c newline); [discriminate|].
  destruct (fields l); discriminate.
Qed.

Lemma fields_closed (l : list ascii) :
  fields (l ++ [newline]) = (fields l ++ [[]])%list.
Proof.
  induction l as [|c l IH]; simpl.
  - reflexivity.
  - destruct (Ascii.eqb c newline); rewrite IH; [reflexivity|].
    pose proof (fields_nonempty l) as H.
    destruct (fields l) as [|f rest]; [contradiction|]. reflexivity.
Qed.

Lemma process_lines_app (this : PatchExtractor) (lines lines' : list string) :
  forall (fs : filesystem) (cout : string),
    process_lines this fs cout (lines ++ lines') =
    match process_lines this fs cout lines with
    | Returned (fs1, cout1) => process_lines this fs1 cout1 lines'
    | Thrown what => Thrown what
    | Undefined => Undefined
    | Unfinished => Unfinished
    end.
Proof.
  induction lines as [|nextline lines IH]; intros fs cout; cbn [app process_lines].
  - reflexivity.
  - destruct (PatchExtractor_WriteSort this fs (c_str nextline)); try reflexivity.
    apply IH.
Qed.

(** A list of runs that ends with an end of line sends [Sort] into a last
    call of [WriteSort] with the empty run name.  Unless there is a file
    named [.pcl] in the input directory, that call reads outside the
    empty list, and [Sort] does not return. *)
Theorem X15_a_closed_last_line_is_one_run_more :
  forall (fs : filesystem) (cout runfilelist destination contents : string)
         (sample : Z) (r : filesystem * string),
    file fs (c_str runfilelist) = Some (contents ++ String newline EmptyString) ->
    file fs
      (c_str (string_of_list_ascii (hd [] (fields (list_ascii_of_string contents)))
              ++ ".pcl")) = None ->
    c_str (string_of_list_ascii (hd [] (fields (list_ascii_of_string contents)))
           ++ ".pcl")
    <> c_str (destination ++ "/" ++ "ConfusionMatrix.txt") ->
    Sort fs cout runfilelist destination sample <> Returned r.
Proof.
  intros fs cout runfilelist destination contents sample r Hfile Hpcl Hother.
  rewrite (Sort_fields _ _ _ _ _ _ Hfile).
  rewrite list_ascii_of_string_append. cbn [list_ascii_of_string].
  rewrite fields_closed.
  pose proof (fields_nonempty (list_ascii_of_string contents)) as Hne.
  destruct (fields (list_ascii_of_string contents)) as [|directory runs];
    [contradiction|].
  cbn [app hd tl] in *. rewrite map_app, process_lines_app.
  set (this := mk_PatchExtractor destination (string_of_list_ascii directory) sample).
  destruct (process_lines this fs cout (map string_of_list_ascii runs))
    as [[fs1 cout1]| | |] eqn:E; try discriminate.
  destruct (process_lines_returned _ _ _ _ _ _ E) as (_ & _ & _ & _ & Hframe & _).
  cbn [map process_lines string_of_list_ascii c_str].
  assert (Hmissing : PatchExtractor_WriteSort this fs1 EmptyString = Undefined).
  { unfold PatchExtractor_WriteSort, ifstream.
    cbn [this inputdirectory append].
    rewrite (Hframe _ Hother), Hpcl.
    rewrite WriteSort_without_pcl. reflexivity. }
  rewrite Hmissing. discriminate.
Qed.

Lemma X15_a_closed_last_line_is_one_run_more_witness :
  file (example_files true) (c_str "list")
  = Some (("in/" ++ String newline "r1") ++ String newline EmptyString)
  /\ forall r, Sort (example_files true) "" "list" "out" 1 <> Returned r.
Proof.
  split; [reflexivity|]. intros r.
  apply (X15_a_closed_last_line_is_one_run_more
           (example_files true) "" "list" "out" ("in/" ++ String newline "r1") 1 r).
  - reflexivity.
  - reflexivity.
  - vm_compute. discriminate.
Defined.

(* ================================================================== *)
(** ** A line in front of a stream *)

Lemma records_from_renumber (d ssn : Z) (l : list ascii) :
  forall (cn : string) (idx : Z),
    records_from (uint32_wrap (ssn + d)) l cn idx =
    map (renumber d) (records_from ssn l cn idx).
Proof.
  induction l as [|c l IH]; intros cn idx; simpl; [reflexivity|].
  destruct (isspace c); [apply IH|].
  destruct (is_delimiter c); [|apply IH].
  cbn [map]. f_equal.
  - destruct cn; reflexivity.
  - destruct (Ascii.eqb c langle); [reflexivity | apply IH].
Qed.

Lemma body_records_renumber (d ssn : Z) (stream : istream) :
  body_records (uint32_wrap (ssn + d)) stream =
  map (renumber d) (body_records ssn stream).
Proof.
  unfold body_records. destruct (good stream); [|reflexivity].
  apply records_from_renumber.
Qed.

Lemma uint32_wrap_shift (ssn d : Z) :
  uint32_wrap (uint32_wrap (ssn + d) + 1) = uint32_wrap (uint32_wrap (ssn + 1) + d).
Proof.
  unfold uint32_wrap, uint32_modulus.
  rewrite !Z.add_mod_idemp_l by lia. f_equal. lia.
Qed.

(** Starting the count of subsamples [d] higher moves every subsample
    number on by [d] and changes nothing else. *)
Lemma parse_classes_renumber (d : Z) (fuel : nat) :
  forall (stream : istream) (input : string) (ssn : Z),
    parse_classes fuel stream input (uint32_wrap (ssn + d)) =
    option_map (map (map (renumber d))) (parse_classes fuel stream input ssn).
Proof.
  induction fuel as [|fuel IH]; intros stream input ssn; [reflexivity|].
  rewrite !parse_classes_turn.
  destruct (getline stream input rangle) as [[stream1 input1] ok].
  destruct ok; [|reflexivity].
  destruct (String.eqb (trim_left input1) "<CLASS").
  - rewrite uint32_wrap_shift, IH, body_records_renumber.
    destruct (parse_classes fuel _ _ (uint32_wrap (ssn + 1))); reflexivity.
  - destruct (getline stream1 (trim_left input1) newline) as [[stream2 input2] ok2].
    apply IH.
Qed.

(** A well-formed [<CLASS>] line in front of any stream: the parsed list
    is the subsample of the line, numbered 1, followed by the parsed list
    of the stream behind the line with every subsample number one
    higher. *)
Theorem X16_a_class_line_goes_in_front :
  forall (line : list ascii * list ascii) (rest : list ascii),
    well_formed_line line ->
    ClassificationList_of (opened (class_line line ++ rest)) =
    option_map
      (fun cl =>
         body_records 1 (opened (snd line ++ [langle]))
         :: map (map (renumber 1)) cl)
      (ClassificationList_of (opened rest)).
Proof.
  intros line rest Hline.
  unfold ClassificationList_of. cbn [opened buf].
  pose proof (class_line_length line) as Hlen.
  rewrite length_app.
  replace (1 + (List.length (class_line line) + List.length rest))%nat
    with (S (S (List.length (class_line line) - 1 + List.length rest))) by lia.
  rewrite (parse_class_line line rest _ _ _ Hline).
  rewrite (parse_classes_fuel _ (1 + List.length rest))
    by (cbn [opened buf]; lia).
  change (uint32_wrap (0 + 1)) with 1.
  change (parse_classes (1 + List.length rest) (opened rest) EmptyString 1)
    with (parse_classes (1 + List.length rest) (opened rest) EmptyString
            (uint32_wrap (0 + 1))).
  rewrite parse_classes_renumber.
  destruct (parse_classes (1 + List.length rest) (opened rest) EmptyString 0);
    reflexivity.
Qed.

Lemma X16_a_class_line_goes_in_front_witness :
  well_formed_line (list_ascii_of_string " ", list_ascii_of_string "RBC,WBC")
  /\ ClassificationList_of
       (opened (class_line (list_ascii_of_string " ", list_ascii_of_string "RBC,WBC")
                  ++ list_ascii_of_string "<CLASS>BACT</CLASS>"))
     = Some [[mk_PatchClassification 1 0 "RBC"; mk_PatchClassification 1 1 "WBC"];
            [mk_PatchClassification 2 0 "BACT"]].
Proof.
  assert (H : well_formed_line
                (list_ascii_of_string " ", list_ascii_of_string "RBC,WBC")).
  { split; [reflexivity|]. simpl. intros H.
    repeat (destruct H as [H|H]; [discriminate H|]). exact H. }
  split; [exact H|].
  rewrite (X16_a_class_line_goes_in_front _ (list_ascii_of_string "<CLASS>BACT</CLASS>") H).
  reflexivity.
Defined.

(* ================================================================== *)
(** ** Blocks and other lines *)











(* ================================================================== *)
(** ** What is written determines the matrix *)

Lemma append_cancel_l (fp a b : string) : fp ++ a = fp ++ b -> a = b.
Proof.
  induction fp as [|c fp IH]; simpl; intros H; [exact H|].
  injection H as H. exact (IH H).
Qed.

(** The text of the cells of a row: each cell followed by a tab. *)
Lemma write_row_cells (m : Matrix) (fp : string) (i : Z) :
  write_row m fp i =
  fp ++ (join (map (fun j => format_d (cell m i j) ++ String tab EmptyString)
                 (counter_values (Dim2 m)))
         ++ String newline EmptyString).
Proof.
  unfold write_row. rewrite fold_left_fprintf. unfold fprintf. apply append_assoc.
Qed.

Lemma write_matrix_rows (m : Matrix) (fp : string) :
  write_matrix m fp =
  fp ++ join (map (fun i =>
                     join (map (fun j => format_d (cell m i j)
                                         ++ String tab EmptyString)
                             (counter_values (Dim2 m)))
                     ++ String newline EmptyString)
                (counter_values (Dim1 m))).
Proof.
  unfold write_matrix. generalize (counter_values (Dim1 m)). intros l. revert fp.
  induction l as [|i l IH]; intros fp; cbn [fold_left map join fold_right].
  - rewrite append_empty_r. reflexivity.
  - rewrite IH, write_row_cells. rewrite !append_assoc. reflexivity.
Qed.

Lemma row_cells_no_newline (m : Matrix) (l : list Z) (i : Z) :
  occurrences newline
    (join (map (fun j => format_d (cell m i j) ++ String tab EmptyString) l)) = O.
Proof.
  rewrite (occurrences_join newline _ 0); [reflexivity|].
  intros j. rewrite occurrences_append, format_d_no_newline. reflexivity.
Qed.

(** Nothing is lost in writing.  Two matrices of the same dimensions whose
    tables, written behind the same contents, give the same file have the
    same cells within their dimensions; so two calls of [WriteSort] that
    return and leave the same file from the same former contents have
    accumulated the same 26 by 26 cells. *)
Theorem X10_the_table_determines_the_cells :
  (forall (m1 m2 : Matrix) (fp : string),
      Dim1 m1 = Dim1 m2 -> Dim2 m1 = Dim2 m2 ->
      write_matrix m1 fp = write_matrix m2 fp ->
      forall i j, 0 <= i < Dim1 m1 -> 0 <= j < Dim2 m1 ->
                  cell m1 i j = cell m2 i j)
  /\ (forall (pclfilestream1 aclfilestream1 pclfilestream2 aclfilestream2 : istream)
             (subsamplenumber1 subsamplenumber2 : Z) (confile after : string),
         WriteSort pclfilestream1 aclfilestream1 subsamplenumber1 confile
         = Returned after ->
         WriteSort pclfilestream2 aclfilestream2 subsamplenumber2 confile
         = Returned after ->
         exists pcl1 acl1 pcl2 acl2 m1 m2,
           ClassificationList_of pclfilestream1 = Some pcl1
           /\ ClassificationList_of aclfilestream1 = Some acl1
           /\ ClassificationList_of pclfilestream2 = Some pcl2
           /\ ClassificationList_of aclfilestream2 = Some acl2
           /\ conmatrix_of pcl1 acl1 subsamplenumber1 = Returned m1
           /\ conmatrix_of pcl2 acl2 subsamplenumber2 = Returned m2
           /\ forall i j, 0 <= i <= 25 -> 0 <= j <= 25 ->
                          cell m1 i j = cell m2 i j).
Proof.
  split.
  - intros m1 m2 fp Hd1 Hd2 H i j Hi Hj.
    rewrite !write_matrix_rows, <- Hd1, <- Hd2 in H.
    apply append_cancel_l in H.
    set (cells := fun (m : Matrix) (i : Z) =>
                    join (map (fun j => format_d (cell m i j)
                                        ++ String tab EmptyString)
                            (counter_values (Dim2 m1)))).
    assert (Hrows : forall i, In i (counter_values (Dim1 m1)) ->
                              cells m1 i = cells m2 i).
    { apply (join_terminated_inj newline (cells m1) (cells m2)
               (counter_values (Dim1 m1))
               (row_cells_no_newline m1 _) (row_cells_no_newline m2 _)
               EmptyString EmptyString).
      rewrite !append_empty_r. exact H. }
    specialize (Hrows i (in_counter_values _ i Hi)).
    assert (Hcells : forall j, In j (counter_values (Dim2 m1)) ->
                               format_d (cell m1 i j) = format_d (cell m2 i j)).
    { apply (join_terminated_inj tab
               (fun j => format_d (cell m1 i j)) (fun j => format_d (cell m2 i j))
               (counter_values (Dim2 m1))
               (fun j => format_d_no_tab _) (fun j => format_d_no_tab _)
               EmptyString EmptyString).
      rewrite !append_empty_r. exact Hrows. }
    apply format_d_inj. exact (Hcells j (in_counter_values _ j Hj)).
  - intros p1 a1 p2 a2 s1 s2 confile after H1 H2.
    destruct (WriteSort_returned _ _ _ _ _ H1) as (pcl1 & acl1 & m1 & Hp1 & Ha1 & Hm1 & E1).
    destruct (WriteSort_returned _ _ _ _ _ H2) as (pcl2 & acl2 & m2 & Hp2 & Ha2 & Hm2 & E2).
    exists pcl1, acl1, pcl2, acl2, m1, m2.
    repeat (split; [assumption|]).
    rewrite E1 in E2. apply append_cancel_l in E2.
    exact (matrix_text_inj m1 m2 E2).
Qed.

Lemma X10_the_table_determines_the_cells_witness :
  (write_matrix (Matrix_new 26 26) "old"
   = write_matrix (mk_Matrix 26 26 (fun i j => if i <? 26 then 0 else 9)) "old"
   /\ cell (Matrix_new 26 26) 3 4
      = cell (mk_Matrix 26 26 (fun i j => if i <? 26 then 0 else 9)) 3 4)
  /\ exists m1 m2,
       conmatrix_of [[mk_PatchClassification 1 0 "RBC"]]
         [[mk_PatchClassification 1 0 "WBC"]] 1 = Returned m1
       /\ conmatrix_of [[mk_PatchClassification 1 0 "RBC"]; []]
            [[mk_PatchClassification 1 0 "WBC"]] 1 = Returned m2
       /\ cell m1 0 3 = cell m2 0 3.
Proof.
  split.
  - assert (H : write_matrix (Matrix_new 26 26) "old"
                = write_matrix (mk_Matrix 26 26 (fun i j => if i <? 26 then 0 else 9))
                    "old")
      by (vm_compute; reflexivity).
    split; [exact H|].
    apply (proj1 X10_the_table_determines_the_cells _ _ "old" eq_refl eq_refl H);
      simpl; lia.
  - destruct (proj2 X10_the_table_determines_the_cells
                (istream_of "<CLASS>RBC,") (istream_of "<CLASS>WBC,")
                (istream_of "<CLASS>RBC,</CLASS>
<CLASS>") (istream_of "<CLASS>WBC,")
                1 1 "old" _ eq_refl eq_refl)
      as (pcl1 & acl1 & pcl2 & acl2 & m1 & m2 & Hp1 & Ha1 & Hp2 & Ha2 & Hm1 & Hm2 & H).
    vm_compute in Hp1, Ha1, Hp2, Ha2.
    injection Hp1 as <-. injection Ha1 as <-.
    injection Hp2 as <-. injection Ha2 as <-.
    exists m1, m2. split; [exact Hm1|]. split; [exact Hm2|]. apply H; lia.
Defined.
